(** * Scalable GIS for Urbanists: the multi-city accessibility notebook

    A shallow embedding of [notebooks/02-accessibility-analysis-multi-city.ipynb]:
    the five notebook functions ([load_features], [build_network],
    [proximity_analysis], [accessibility_analysis], [plot]) and the three ways
    the notebook runs them (serial cells, [dask.delayed] graph, [dask.bag]
    batch).

    The notebook is glue around three external libraries.  Their objects are
    modelled as follows.
    - GeoDataFrames are mutable Python objects: they live in a heap and the
      notebook functions receive references to them.
    - The pandas operations the notebook uses ([set_index], [df[col]],
      [df[[cols]]], [.centroid.x], [Series.map], [Series.to_dict],
      [df[col] = series]) are pure functions on frame values.
    - The routing engine (pandana) and the geometry reader are black boxes; the
      operations the notebook calls are modelled from the specification's
      description of the collaborators, over an abstract [Router].
    - Coordinates, lengths and counts are integers: the notebook itself does
      no arithmetic on them, it only passes them on. *)

From stdpp Require Import gmap strings list fin_maps sorting.
From Stdlib Require Import ZArith Lia.

Local Open Scope Z_scope.

(** ** Exceptions and results *)

Inductive Exc :=
| NotFound
| FormatError
| ReferentialIntegrityError
| LookupError
| IOError
| KeyError (k : string)
| ValueError
| TypeError
| NameError.

Inductive result (A : Type) :=
| Ok (a : A)
| Err (e : Exc).
Arguments Ok {A} a.
Arguments Err {A} e.

Definition rbind {A B} (r : result A) (k : A → result B) : result B :=
  match r with Ok a => k a | Err e => Err e end.

Definition is_ok {A} (r : result A) : bool :=
  match r with Ok _ => true | Err _ => false end.

Fixpoint rmapM {A B} (f : A → result B) (l : list A) : result (list B) :=
  match l with
  | [] => Ok []
  | a :: l => rbind (f a) (λ b, rbind (rmapM f l) (λ bs, Ok (b :: bs)))
  end.

(** ** Frames and series (pandas / geopandas) *)

(** A cell or an index label.  [VTuple] is a label of a two-level index. *)
Inductive Val :=
| VNum (z : Z)
| VNaN
| VTuple (a b : Val).

Global Instance Val_eq_dec : EqDecision Val.
Proof. solve_decision. Defined.

Fixpoint Val_to_tree (v : Val) : gen_tree (option Z) :=
  match v with
  | VNum z => GenLeaf (Some z)
  | VNaN => GenLeaf None
  | VTuple a b => GenNode 0 [Val_to_tree a; Val_to_tree b]
  end.

Fixpoint Val_of_tree (t : gen_tree (option Z)) : option Val :=
  match t with
  | GenLeaf (Some z) => Some (VNum z)
  | GenLeaf None => Some VNaN
  | GenNode _ [a; b] =>
      match Val_of_tree a, Val_of_tree b with
      | Some a, Some b => Some (VTuple a b)
      | _, _ => None
      end
  | GenNode _ _ => None
  end.

Lemma Val_of_to_tree v : Val_of_tree (Val_to_tree v) = Some v.
Proof. induction v as [z| |a IHa b IHb]; simpl; [done..|]. by rewrite IHa, IHb. Qed.

Global Instance Val_countable : Countable Val :=
  inj_countable Val_to_tree Val_of_tree Val_of_to_tree.

(** A geometry is used through its [.centroid] accessor only.  An empty
    geometry has no centroid: its coordinates read as NaN. *)
Record Geometry := mkGeometry { centroid : option (Z * Z) }.

Definition coord_x (g : Geometry) : Val :=
  match centroid g with Some c => VNum c.1 | None => VNaN end.
Definition coord_y (g : Geometry) : Val :=
  match centroid g with Some c => VNum c.2 | None => VNaN end.

Record Row := mkRow {
  label : Val;
  geometry : Geometry;
  attrs : gmap string Val
}.

Record GeoDataFrame := mkGDF {
  columns : list string;
  rows : list Row
}.

(** A series is a list of (index label, value) pairs, in row order. *)
Abbreviation Series := (list (Val * Val)) (only parsing).

(** A plain DataFrame, as produced by [df[[cols]]]: named columns. *)
Abbreviation DataFrame := (list (string * Series)) (only parsing).

Definition s_index (s : Series) : list Val := s.*1.
Definition s_values (s : Series) : list Val := s.*2.

Definition index (df : GeoDataFrame) : list Val := label <$> rows df.

Definition cell (r : Row) (col : string) : Val := default VNaN (attrs r !! col).

(** [df[col]] *)
Definition getitem (df : GeoDataFrame) (col : string) : result Series :=
  if decide (col ∈ columns df)
  then Ok ((λ r, (label r, cell r col)) <$> rows df)
  else Err (KeyError col).

(** [df[[c1, ..., cn]]] *)
Definition getitems (df : GeoDataFrame) (cols : list string) : result DataFrame :=
  rmapM (λ c, rbind (getitem df c) (λ s, Ok (c, s))) cols.

(** [df.centroid.x] and [df.centroid.y]: series on the frame's own index. *)
Definition centroid_x (df : GeoDataFrame) : Series :=
  (λ r, (label r, coord_x (geometry r))) <$> rows df.
Definition centroid_y (df : GeoDataFrame) : Series :=
  (λ r, (label r, coord_y (geometry r))) <$> rows df.

Fixpoint tuple_of (vs : list Val) : Val :=
  match vs with
  | [] => VNaN
  | [v] => v
  | v :: vs => VTuple v (tuple_of vs)
  end.

(** [df.set_index(keys, drop=False)]: a new frame whose labels are the
    cells of the key columns; the columns are kept. *)
Definition set_index (df : GeoDataFrame) (keys : list string) : result GeoDataFrame :=
  match list_find (λ k, k ∉ columns df) keys with
  | Some (_, k) => Err (KeyError k)
  | None =>
      Ok {| columns := columns df;
            rows := (λ r, {| label := tuple_of ((cell r) <$> keys);
                             geometry := geometry r;
                             attrs := attrs r |}) <$> rows df |}
  end.

(** [series.to_dict()]: a Python dict filled in row order, so a later
    duplicate label overwrites an earlier one. *)
Definition to_dict (s : Series) : gmap Val Val :=
  foldl (λ d kv, <[kv.1 := kv.2]> d) ∅ s.

(** [series.map(d)]: same index, each value looked up in the dict, NaN
    when absent. *)
Definition series_map (s : Series) (d : gmap Val Val) : Series :=
  (λ kv, (kv.1, default VNaN (d !! kv.2))) <$> s.

(** [series.reindex(idx)]: refuses a series with duplicate labels. *)
Definition reindex (s : Series) (idx : list Val) : result (list Val) :=
  if decide (NoDup (s_index s))
  then Ok ((λ l, default VNaN (list_to_map (M := gmap Val Val) s !! l)) <$> idx)
  else Err ValueError.

Definition set_column (df : GeoDataFrame) (col : string) (vals : list Val) : GeoDataFrame :=
  {| columns := if decide (col ∈ columns df) then columns df else columns df ++ [col];
     rows := zip_with (λ r v, {| label := label r; geometry := geometry r;
                                 attrs := <[col := v]> (attrs r) |})
                      (rows df) vals |}.

(** [df[col] = series]: the values are taken positionally when the series
    carries the frame's own index, and aligned on labels otherwise. *)
Definition setitem (df : GeoDataFrame) (col : string) (s : Series) : result GeoDataFrame :=
  rbind (if decide (s_index s = index df) then Ok (s_values s)
         else reindex s (index df))
        (λ vals, Ok (set_column df col vals)).

(** ** The world the notebook runs in *)

Abbreviation loc := nat (only parsing).
Abbreviation Path := (list string) (only parsing).

(** [Path(p) / name], for a name that is one relative component (it holds
    no separator): the names of the notebook are the entries that
    [data_folder.glob] lists and the layer names it writes out. *)
Definition path_join (p : Path) (name : string) : Path := p ++ [name].
Infix "</>" := path_join (at level 40, left associativity).

Record Feature := mkFeature {
  f_geometry : Geometry;
  f_attrs : gmap string Val
}.

(** What a path of the data folder holds: a readable geometry file, bytes
    that do not parse as one, or a directory.  The directories above an entry
    exist with it; an empty directory is an entry of its own. *)
Inductive File :=
| Shapefile (cols : list string) (features : list Feature)
| Corrupt
| Directory.

Record Figure := mkFigure {
  fig_parks : list Geometry;
  fig_buildings : list (Geometry * Val)
}.

(** Calls that leave the notebook: file reads, engine calls, figure writes. *)
Inductive Event :=
| EvRead (p : Path)
| EvNetwork
| EvSetPois (category : string) (maxdist : Z) (maxitems : nat)
| EvNearestPois (distance : Z) (category : string) (num_pois : nat)
| EvGetNodeIds
| EvSet (name : string)
| EvAggregate (distance : Z) (type name : string)
| EvSaveFig (p : Path).

Record World := mkWorld {
  heap : list GeoDataFrame;       (* live GeoDataFrame objects, by reference *)
  disk : gmap Path File;          (* the data folder *)
  writable : Path → bool;         (* where a figure may be written *)
  figures : gmap Path Figure;     (* figures saved so far *)
  trace : list Event
}.

Definition add_events (evs : list Event) (w : World) : World :=
  {| heap := heap w; disk := disk w; writable := writable w;
     figures := figures w; trace := trace w ++ evs |}.

Definition set_heap (h : list GeoDataFrame) (w : World) : World :=
  {| heap := h; disk := disk w; writable := writable w;
     figures := figures w; trace := trace w |}.

Definition set_figures (f : gmap Path Figure) (w : World) : World :=
  {| heap := heap w; disk := disk w; writable := writable w;
     figures := f; trace := trace w |}.

(** Python code: a state transformer that may raise.  A raised exception
    keeps the effects performed so far. *)
Definition M (A : Type) : Type := World → result A * World.

Definition ret {A} (a : A) : M A := λ w, (Ok a, w).
Definition raise {A} (e : Exc) : M A := λ w, (Err e, w).
Definition bind {A B} (m : M A) (k : A → M B) : M B :=
  λ w, match m w with
       | (Ok a, w') => k a w'
       | (Err e, w') => (Err e, w')
       end.
Definition lift {A} (r : result A) : M A := λ w, (r, w).

Declare Scope py_scope.
Delimit Scope py_scope with py.
Notation "x <- c1 ;; c2" := (bind c1 (λ x, c2))
  (at level 100, c1 at next level, right associativity) : py_scope.
Notation "c1 ;; c2" := (bind c1 (λ _, c2))
  (at level 100, right associativity) : py_scope.
Local Open Scope py_scope.

Definition log (ev : Event) : M unit := λ w, (Ok tt, add_events [ev] w).

(** Following a reference. *)
Definition deref (l : loc) : M GeoDataFrame :=
  λ w, match heap w !! l with
       | Some df => (Ok df, w)
       | None => (Err TypeError, w)
       end.

(** A new object. *)
Definition alloc (df : GeoDataFrame) : M loc :=
  λ w, (Ok (length (heap w)), set_heap (heap w ++ [df]) w).

(** In-place update of the object behind a reference. *)
Definition store (l : loc) (df : GeoDataFrame) : M unit :=
  λ w, (Ok tt, set_heap (<[l := df]> (heap w)) w).

(** ** Geometry I/O *)

(** Modelled from the spec: the geometry collection with attribute columns
    that a readable file parses to; its rows are labelled 0, 1, 2, ... *)
Definition frame_of (cols : list string) (fs : list Feature) : GeoDataFrame :=
  {| columns := cols;
     rows := imap (λ i f, {| label := VNum (Z.of_nat i);
                             geometry := f_geometry f;
                             attrs := f_attrs f |}) fs |}.

(** Modelled from the spec: the geometry reader [gpd.read_file] is an external
    collaborator, [read(path)] returning a geometry collection with attribute
    columns; it fails with NotFound when the file is absent and with
    FormatError when the file cannot be parsed as geometry.  The frame it
    returns is a new object. *)
Definition read_file (p : Path) : M loc :=
  log (EvRead p) ;;
  λ w, match disk w !! p with
       | None => raise NotFound w
       | Some Corrupt | Some Directory => raise FormatError w
       | Some (Shapefile cols fs) => alloc (frame_of cols fs) w
       end.

(** Modelled from the spec: [fig.savefig(path)] of the plotting library; it
    fails with an IOError when the output path is not writable. *)
Definition savefig (fig : Figure) (p : Path) : M unit :=
  log (EvSaveFig p) ;;
  λ w, if writable w p
       then (Ok tt, set_figures (<[p := fig]> (figures w)) w)
       else raise IOError w.

(** ** The routing engine (pandana) *)

Record PoiSet := mkPoiSet {
  poi_maxdist : Z;
  poi_maxitems : nat;
  poi_x : Series;
  poi_y : Series
}.

(** The graph handle: the node and edge series the graph was built from,
    the POI categories registered on it, and the node variables set on it. *)
Record Network := mkNetwork {
  node_x : Series;
  node_y : Series;
  edge_from : Series;
  edge_to : Series;
  edge_weights : DataFrame;
  pois : gmap string PoiSet;
  variables : gmap string Series
}.

(** The shortest-path and nearest-neighbour search of the engine, left
    abstract: which node is nearest to a point (if any), the network
    distances from a node to the POIs of a category in ascending order, the
    marker reported for a slot with no POI, and the aggregate of a variable
    around a node. *)
Record Router := mkRouter {
  nearest_node : Network → Val → Val → option Val;
  poi_distances : Network → string → Val → list Z;
  not_found : Z → Z;
  aggregate_value : Network → string → string → Z → Val → Z
}.

(** The per-node distance table of a proximity query: one row per node. *)
Abbreviation Table := (list (Val * list Z)) (only parsing).

(** The node identifiers of a graph: the index of its node series. *)
Definition node_ids_of (net : Network) : list Val := s_index (node_x net).

(** Modelled from the spec: [pandana.Network(...)] is the collaborator's
    [build(nodes, edges)] returning a graph handle.  The specification lists
    no failure for it: the handle holds the series it is given, whatever
    endpoints the edges name. *)
Definition pandana_Network (node_x node_y edge_from edge_to : Series)
    (edge_weights : DataFrame) : M Network :=
  log EvNetwork ;;
  ret {| node_x := node_x; node_y := node_y;
         edge_from := edge_from; edge_to := edge_to;
         edge_weights := edge_weights;
         pois := ∅; variables := ∅ |}.

(** The graph with one more POI category, and with one more variable. *)
Definition with_pois (net : Network) (category : string) (ps : PoiSet) : Network :=
  {| node_x := node_x net; node_y := node_y net;
     edge_from := edge_from net; edge_to := edge_to net;
     edge_weights := edge_weights net;
     pois := <[category := ps]> (pois net);
     variables := variables net |}.

Definition with_variable (net : Network) (name : string) (node_ids : Series) : Network :=
  {| node_x := node_x net; node_y := node_y net;
     edge_from := edge_from net; edge_to := edge_to net;
     edge_weights := edge_weights net;
     pois := pois net;
     variables := <[name := node_ids]> (variables net) |}.

(** Modelled from the spec: [network.set_pois] is the collaborator's
    [register_pois(graph, category, points, maxdist, maxitems)]; the category
    is registered under the two bounds given at registration time. *)
Definition set_pois (net : Network) (category : string) (maxdist : Z)
    (maxitems : nat) (x_col y_col : Series) : M Network :=
  log (EvSetPois category maxdist maxitems) ;;
  ret (with_pois net category (mkPoiSet maxdist maxitems x_col y_col)).

(** Modelled from the spec: [network.set(node_ids, name=...)] attaches to the
    graph, under a name, the node variable that the collaborator's
    [aggregate(graph, category, distance, op)] is later asked for. *)
Definition network_set (net : Network) (node_ids : Series) (name : string) : M Network :=
  log (EvSet name) ;;
  ret (with_variable net name node_ids).

Section Engine.
Variable R : Router.

(** Modelled from the spec: the distances from a node to the POIs of a
    category that lie within the threshold. *)
Definition pois_within (net : Network) (category : string) (distance : Z)
    (node : Val) : list Z :=
  filter (λ x, x ≤ distance) (poi_distances R net category node).

(** Modelled from the spec: the [num_pois] slots of a node, the distances to
    up to [num_pois] nearest POIs within the threshold, then the not-found
    sentinel in every slot left over. *)
Definition slots (net : Network) (category : string) (distance : Z)
    (num_pois : nat) (node : Val) : list Z :=
  let found := take num_pois (pois_within net category distance node) in
  found ++ replicate (num_pois - length found) (not_found R distance).

(** Modelled from the spec: the per-node distance table, for every graph
    node. *)
Definition proximity_table (net : Network) (category : string) (distance : Z)
    (num_pois : nat) : Table :=
  (λ n, (n, slots net category distance num_pois n)) <$> node_ids_of net.

(** Modelled from the spec: [network.nearest_pois] is the collaborator's
    [nearest_pois(graph, category, distance, k)]; it returns, for every graph
    node, the distances to up to k nearest POIs within the threshold, using
    the not-found sentinel where fewer than k POIs exist within range.  (The
    notebook passes [include_poi_ids=False]: distance columns only.) *)
Definition nearest_pois (net : Network) (distance : Z) (category : string)
    (num_pois : nat) : M Table :=
  log (EvNearestPois distance category num_pois) ;;
  match pois net !! category with
  | None => raise (KeyError category)
  | Some _ => ret (proximity_table net category distance num_pois)
  end.

(** Modelled from the spec: the per-node scalar table of an aggregate. *)
Definition aggregate_table (net : Network) (type name : string) (distance : Z) : Series :=
  (λ n, (n, VNum (aggregate_value R net type name distance n))) <$> node_ids_of net.

(** Modelled from the spec: [network.aggregate] is the collaborator's
    [aggregate(graph, category, distance, op)] returning a per-node scalar
    table, indexed by node identifier. *)
Definition aggregate (net : Network) (distance : Z) (type name : string) : M Series :=
  log (EvAggregate distance type name) ;;
  match variables net !! name with
  | None => raise (KeyError name)
  | Some _ => ret (aggregate_table net type name distance)
  end.

(** Modelled from the spec: the nearest-node snap of one point; a point with
    no resolvable nearest node is a LookupError. *)
Definition snap (net : Network) (x y : Val * Val) : result (Val * Val) :=
  match nearest_node R net x.2 y.2 with
  | Some n => Ok (x.1, n)
  | None => Err LookupError
  end.

(** Modelled from the spec: the snap of every point of two columns, in row
    order; the first failure is the failure of the whole. *)
Definition snap_all (net : Network) (x_col y_col : Series) : result Series :=
  rmapM (λ xy, snap net xy.1 xy.2) (zip x_col y_col).

(** Modelled from the spec: [network.get_node_ids(x_col, y_col)] is the
    collaborator's [nearest_node(graph, x, y)] applied to every point of the
    two columns in one call; the result carries the index of [x_col].  A
    point with no resolvable nearest node is a LookupError. *)
Definition get_node_ids (net : Network) (x_col y_col : Series) : M Series :=
  log EvGetNodeIds ;;
  lift (snap_all net x_col y_col).

(** ** The notebook functions *)

Definition load_features (data_folder : Path) (city features : string) : M loc :=
  let file_path := data_folder </> city </> (features +:+ "_" +:+ city +:+ ".shp") in
  features <- read_file file_path ;;
  ret features.

Definition build_network (nodes edges parks : loc) : M Network :=
  (* set indexes for nodes and edges *)
  nodes <- (df <- deref nodes ;; lift (set_index df ["osmid"])) ;;
  edges <- (df <- deref edges ;; lift (set_index df ["u"; "v"])) ;;
  (* set up the network *)
  node_x <- lift (getitem nodes "x") ;;
  node_y <- lift (getitem nodes "y") ;;
  edge_from <- lift (getitem edges "u") ;;
  edge_to <- lift (getitem edges "v") ;;
  edge_weights <- lift (getitems edges ["length"]) ;;
  network <- pandana_Network node_x node_y edge_from edge_to edge_weights ;;
  (* set park centroids as points of interest *)
  parks <- deref parks ;;
  network <- set_pois network "parks" 1000 25 (centroid_x parks) (centroid_y parks) ;;
  ret network.

Definition proximity_analysis (nodes edges parks : loc) : M Table :=
  (* build network *)
  network <- build_network nodes edges parks ;;
  (* for all nodes, find 3 closest parks within 800m *)
  proximity <- nearest_pois network 800 "parks" 3 ;;
  ret proximity.

(** [df[col] = series] on the object behind a reference. *)
Definition setitem_at (l : loc) (col : string) (s : Series) : M unit :=
  df <- deref l ;;
  df' <- lift (setitem df col s) ;;
  store l df'.

(** The default [d=800] is passed by the callers. *)
Definition accessibility_analysis (nodes edges parks buildings : loc) (d : Z) : M loc :=
  (* build network *)
  network <- build_network nodes edges parks ;;
  (* add target points to network *)
  node_ids <- (p <- deref parks ;;
               get_node_ids network (centroid_x p) (centroid_y p)) ;;
  network <- network_set network node_ids "parks" ;;
  (* for all nodes, find how many parks fall within distance d *)
  accessibility <- aggregate network d "count" "parks" ;;
  (* assign accessibility of buildings using closest nodes *)
  node_ids <- (b <- deref buildings ;;
               get_node_ids network (centroid_x b) (centroid_y b)) ;;
  setitem_at buildings "accessibility" (series_map node_ids (to_dict accessibility)) ;;
  ret buildings.

Definition plot (city : string) (parks buildings : loc) (fig_folder : Path) : M unit :=
  parks <- deref parks ;;
  buildings <- deref buildings ;;
  accessibility <- lift (getitem buildings "accessibility") ;;
  let fig := {| fig_parks := geometry <$> rows parks;
                fig_buildings := zip (geometry <$> rows buildings)
                                     (s_values accessibility) |} in
  let fig_path := fig_folder </> (city +:+ ".png") in
  savefig fig fig_path.

End Engine.

(** ** Deferred execution (dask) *)

(** What a task consumes and produces.  A GeoDataFrame travels by
    reference; the proximity table is a value. *)
Inductive Value :=
| VPath (p : Path)
| VStr (s : string)
| VRef (l : loc)
| VTable (t : Table)
| VNone.

(** The notebook functions that get wrapped for deferred execution. *)
Inductive Func :=
| FLoadFeatures
| FProximityAnalysis
| FAccessibilityAnalysis
| FPlot.

(** A task is named by the graph variable it belongs to and, for a bag, by
    the partition it computes. *)
Abbreviation Key := (string * nat)%type (only parsing).

#[local] Set Warnings "-register-all".

(** A task graph: a deferred call refers to the tasks that produce its
    arguments.  The same task may be referred to from several places. *)
Inductive Delayed :=
| DConst (v : Value)
| DCall (key : Key) (f : Func) (args : list Delayed).

Abbreviation Cache := (list (Key * Value)) (only parsing).

Fixpoint cache_get (k : Key) (c : Cache) : option Value :=
  match c with
  | [] => None
  | (k', v) :: c => if decide (k = k') then Some v else cache_get k c
  end.

(** A bag, one city per partition. *)
Abbreviation Bag := (list Delayed) (only parsing).

(** ** The notebook kernel *)

(** The variables that the cells of section 3 bind. *)
Record Vars := mkVars {
  var_parks : option loc;
  var_nodes : option loc;
  var_edges : option loc;
  var_buildings : option loc;
  var_proximity : option Table;
  var_accessibility : option loc
}.

(** A fresh kernel has bound nothing. *)
Definition no_vars : Vars := mkVars None None None None None None.

Definition bind_parks (l : loc) (vs : Vars) : Vars :=
  mkVars (Some l) (var_nodes vs) (var_edges vs) (var_buildings vs)
         (var_proximity vs) (var_accessibility vs).
Definition bind_nodes (l : loc) (vs : Vars) : Vars :=
  mkVars (var_parks vs) (Some l) (var_edges vs) (var_buildings vs)
         (var_proximity vs) (var_accessibility vs).
Definition bind_edges (l : loc) (vs : Vars) : Vars :=
  mkVars (var_parks vs) (var_nodes vs) (Some l) (var_buildings vs)
         (var_proximity vs) (var_accessibility vs).
Definition bind_buildings (l : loc) (vs : Vars) : Vars :=
  mkVars (var_parks vs) (var_nodes vs) (var_edges vs) (Some l)
         (var_proximity vs) (var_accessibility vs).
Definition bind_proximity (t : Table) (vs : Vars) : Vars :=
  mkVars (var_parks vs) (var_nodes vs) (var_edges vs) (var_buildings vs)
         (Some t) (var_accessibility vs).
Definition bind_accessibility (l : loc) (vs : Vars) : Vars :=
  mkVars (var_parks vs) (var_nodes vs) (var_edges vs) (var_buildings vs)
         (var_proximity vs) (Some l).

(** Reading a variable: a NameError when nothing has bound it. *)
Definition read_var {A} (x : option A) : M A :=
  match x with
  | Some a => ret a
  | None => raise NameError
  end.

(** An assignment statement: it reads the variables it names, runs, and
    binds its target when it has run to its end. *)
Abbreviation Stmt := (Vars → M Vars) (only parsing).

(** Running statements in order: the first one that raises stops the run
    with its exception, and the variables bound so far stay as they are. *)
Fixpoint run_cells (stmts : list Stmt) (vs : Vars) (w : World)
    : (Vars * option Exc) * World :=
  match stmts with
  | [] => ((vs, None), w)
  | stmt :: stmts =>
      match stmt vs w with
      | (Ok vs', w') => run_cells stmts vs' w'
      | (Err x, w') => ((vs, Some x), w')
      end
  end.

Section Dask.
Variable R : Router.

(** Running a wrapped function on materialised arguments. *)
Definition call (f : Func) (args : list Value) : M Value :=
  match f, args with
  | FLoadFeatures, [VPath data_folder; VStr city; VStr features] =>
      l <- load_features data_folder city features ;; ret (VRef l)
  | FProximityAnalysis, [VRef nodes; VRef edges; VRef parks] =>
      t <- proximity_analysis R nodes edges parks ;; ret (VTable t)
  | FAccessibilityAnalysis, [VRef nodes; VRef edges; VRef parks; VRef buildings] =>
      l <- accessibility_analysis R nodes edges parks buildings 800 ;; ret (VRef l)
  | FPlot, [VStr city; VRef parks; VRef buildings; VPath fig_folder] =>
      plot city parks buildings fig_folder ;; ret VNone
  | _, _ => raise TypeError
  end.

(** Modelled from the spec: the task engine evaluates a task graph in
    dependency order, a task after the tasks that produce its arguments and
    each task once (the cache holds the results of the tasks already run).
    Nothing in the notebook catches an exception, so an exception raised by a
    task is raised by the evaluation. *)
Fixpoint eval (d : Delayed) (c : Cache) : M (Value * Cache) :=
  match d with
  | DConst v => ret (v, c)
  | DCall k f args =>
      match cache_get k c with
      | Some v => ret (v, c)
      | None =>
          r <- (fix eval_args (ds : list Delayed) (c : Cache) : M (list Value * Cache) :=
                  match ds with
                  | [] => ret ([], c)
                  | d :: ds =>
                      r1 <- eval d c ;;
                      r2 <- eval_args ds r1.2 ;;
                      ret (r1.1 :: r2.1, r2.2)
                  end) args c ;;
          v <- call f r.1 ;;
          ret (v, (k, v) :: r.2)
      end
  end.

Fixpoint eval_list (ds : list Delayed) (c : Cache) : M (list Value * Cache) :=
  match ds with
  | [] => ret ([], c)
  | d :: ds =>
      r1 <- eval d c ;;
      r2 <- eval_list ds r1.2 ;;
      ret (r1.1 :: r2.1, r2.2)
  end.

(** Modelled from the spec: [dask.compute(t1, ..., tn)] is the task engine's
    [compute(graph-handle-or-list)] returning the materialised results; the
    targets are evaluated over one shared cache, here in the order given. *)
Definition compute (targets : list Delayed) : M (list Value) :=
  r <- eval_list targets [] ;;
  ret r.1.

(** Modelled from the spec: [delayed(f)(args)] is the task engine's
    [wrap(function)] applied to arguments; it builds a task and runs
    nothing. *)
Definition delayed (f : Func) (name : string) (args : list Delayed) : M Delayed :=
  ret (DCall (name, 0%nat) f args).

(** *** Section 3 of the notebook: the serial cells

    The cells are run one after the other ([Run All]): three cells, six
    assignment statements.  A statement that raises stops the run, and what
    the statements before it have bound stays bound. *)
Definition serial_cells (data_folder : Path) (city : string) : list Stmt :=
  [ (* cell 1 *)
    (λ vs, parks <- load_features data_folder city "parks" ;;
           ret (bind_parks parks vs));
    (λ vs, nodes <- load_features data_folder city "nodes" ;;
           ret (bind_nodes nodes vs));
    (λ vs, edges <- load_features data_folder city "edges" ;;
           ret (bind_edges edges vs));
    (λ vs, buildings <- load_features data_folder city "buildings" ;;
           ret (bind_buildings buildings vs));
    (* cell 2 *)
    (λ vs, nodes <- read_var (var_nodes vs) ;;
           edges <- read_var (var_edges vs) ;;
           parks <- read_var (var_parks vs) ;;
           proximity <- proximity_analysis R nodes edges parks ;;
           ret (bind_proximity proximity vs));
    (* cell 3 *)
    (λ vs, nodes <- read_var (var_nodes vs) ;;
           edges <- read_var (var_edges vs) ;;
           parks <- read_var (var_parks vs) ;;
           buildings <- read_var (var_buildings vs) ;;
           accessibility <- accessibility_analysis R nodes edges parks buildings 800 ;;
           ret (bind_accessibility accessibility vs)) ].

(** *** Section 4 of the notebook: the same steps as a task graph *)
Definition lazy_cells (data_folder : Path) (city : string) : M (Delayed * Delayed) :=
  let load_features_lazy := delayed FLoadFeatures in
  let arg3 (features : string) :=
    [DConst (VPath data_folder); DConst (VStr city); DConst (VStr features)] in
  parks_p <- load_features_lazy "parks_p" (arg3 "parks") ;;
  nodes_p <- load_features_lazy "nodes_p" (arg3 "nodes") ;;
  edges_p <- load_features_lazy "edges_p" (arg3 "edges") ;;
  buildings_p <- load_features_lazy "buildings_p" (arg3 "buildings") ;;
  let proximity_analysis_lazy := delayed FProximityAnalysis in
  proximity_p <- proximity_analysis_lazy "proximity_p" [nodes_p; edges_p; parks_p] ;;
  let accessibility_analysis_lazy := delayed FAccessibilityAnalysis in
  accessibility_p <- accessibility_analysis_lazy "accessibility_p"
                       [nodes_p; edges_p; parks_p; buildings_p] ;;
  ret (proximity_p, accessibility_p).

(** *** Section 5 of the notebook: all cities, as bags *)

(** [db.from_sequence(seq)] *)
Definition from_sequence (seq : list string) : Bag := (λ s, DConst (VStr s)) <$> seq.

Inductive BagArg :=
| Each (b : Bag)
| Const (v : Value).

Definition bag_arg_at (i : nat) (a : BagArg) : Delayed :=
  match a with
  | Each b => default (DConst VNone) (b !! i)
  | Const v => DConst v
  end.

Fixpoint npartitions (args : list BagArg) : nat :=
  match args with
  | [] => 0
  | Each b :: _ => length b
  | Const _ :: args => npartitions args
  end.

(** Modelled from the spec: [db.map(f, args...)] maps a stage over the
    elements of a collection, one task per partition, applied to the matching
    elements of the bags among the arguments. *)
Definition db_map (name : string) (f : Func) (args : list BagArg) : Bag :=
  (λ i, DCall (name, i) f (bag_arg_at i <$> args)) <$> seq 0 (npartitions args).

(** [[el.name for el in data_folder.glob("*")]]: the names of the entries
    directly under the data folder, files and directories alike.  A
    directory is an entry when the disk holds it or something below it. *)
Definition glob_names (data_folder : Path) (d : gmap Path File) : list string :=
  remove_dups
    (omap (λ p, if decide (data_folder `prefix_of` p)
                then head (drop (length data_folder) p) else None)
          (elements (dom d))).

Definition batch_bags (data_folder : Path) (cities : list string)
    (fig_folder : Path) : Bag :=
  let cities_bag := from_sequence cities in
  let load (name features : string) :=
    db_map name FLoadFeatures
      [Const (VPath data_folder); Each cities_bag; Const (VStr features)] in
  let nodes_bag := load "nodes_bag" "nodes" in
  let edges_bag := load "edges_bag" "edges" in
  let parks_bag := load "parks_bag" "parks" in
  let buildings_bag := load "buildings_bag" "buildings" in
  let accessibility_bag :=
    db_map "accessibility_bag" FAccessibilityAnalysis
      [Each nodes_bag; Each edges_bag; Each parks_bag; Each buildings_bag] in
  let res :=
    db_map "res" FPlot
      [Each cities_bag; Each parks_bag; Each accessibility_bag;
       Const (VPath fig_folder)] in
  res.

Definition batch_cells (data_folder fig_folder : Path) : M (list Value) :=
  cities <- (λ w, ret (glob_names data_folder (disk w)) w) ;;
  let res := batch_bags data_folder cities fig_folder in
  compute res.

End Dask.

(** ** A reference router

    One concrete engine, to run the notebook on concrete data: the nearest
    node is the one at the least straight-line distance, network distances
    are shortest paths over the two-way edges. *)
Module Ref.

Definition sqdist (x1 y1 x2 y2 : Z) : Z := (x1 - x2) ^ 2 + (y1 - y2) ^ 2.

Definition closer (x y : Z) (best : option (Val * Z)) (n : (Val * Val) * (Val * Val))
    : option (Val * Z) :=
  match n.1.2, n.2.2 with
  | VNum nx, VNum ny =>
      let d := sqdist x y nx ny in
      match best with
      | Some (_, bd) => if bool_decide (bd ≤ d) then best else Some (n.1.1, d)
      | None => Some (n.1.1, d)
      end
  | _, _ => best
  end.

Definition nearest (net : Network) (x y : Val) : option Val :=
  match x, y with
  | VNum x, VNum y => fst <$> foldl (closer x y) None (zip (node_x net) (node_y net))
  | _, _ => None
  end.

Definition weights (net : Network) : list Val :=
  match edge_weights net with
  | (_, s) :: _ => s_values s
  | [] => []
  end.

Definition relax_edge (u v : Val) (w : Z) (dist : gmap Val Z) : gmap Val Z :=
  match dist !! u with
  | Some du =>
      match dist !! v with
      | Some dv => if bool_decide (du + w < dv) then <[v := du + w]> dist else dist
      | None => <[v := du + w]> dist
      end
  | None => dist
  end.

Definition relax (net : Network) (dist : gmap Val Z) : gmap Val Z :=
  foldl (λ dist e,
           match e.2 with
           | VNum w => relax_edge e.1.2 e.1.1 w (relax_edge e.1.1 e.1.2 w dist)
           | _ => dist
           end)
        dist (zip (zip (s_values (edge_from net)) (s_values (edge_to net))) (weights net)).

(** Shortest-path distances from a node. *)
Definition distances (net : Network) (src : Val) : gmap Val Z :=
  Nat.iter (length (node_x net)) (relax net) {[src := 0]}.

Definition poi_dists (net : Network) (category : string) (node : Val) : list Z :=
  match pois net !! category with
  | None => []
  | Some ps =>
      let dist := distances net node in
      let ds := omap (λ xy, n ← nearest net xy.1.2 xy.2.2; dist !! n)
                     (zip (poi_x ps) (poi_y ps)) in
      take (poi_maxitems ps)
           (merge_sort Z.le (filter (λ d, d ≤ poi_maxdist ps) ds))
  end.

Definition agg_value (net : Network) (type name : string) (distance : Z)
    (node : Val) : Z :=
  match variables net !! name with
  | Some ids =>
      if bool_decide (type = "count")
      then
        let dist := distances net node in
        Z.of_nat (length (filter (λ d, d ≤ distance)
                                 (omap (λ n, dist !! n) (s_values ids))))
      else 0
  | None => 0
  end.

Definition router : Router :=
  {| nearest_node := nearest;
     poi_distances := poi_dists;
     not_found := λ distance, distance;
     aggregate_value := agg_value |}.

End Ref.

(** ** A small data folder

    Delft: three nodes on a line (0 m, 500 m, 2000 m), two edges, one park
    next to the first node, two buildings.  Gouda is Delft with an unreadable
    edge file. *)
Module Data.

Definition point (x y : Z) : Geometry := mkGeometry (Some (x, y)).
Definition empty : Geometry := mkGeometry None.

Definition node (osmid x y : Z) : Feature :=
  mkFeature (point x y) (<["osmid" := VNum osmid]> (<["x" := VNum x]> {["y" := VNum y]})).
Definition edge (u v length : Z) : Feature :=
  mkFeature empty (<["u" := VNum u]> (<["v" := VNum v]> {["length" := VNum length]})).
Definition shape (g : Geometry) : Feature := mkFeature g ∅.

Definition nodes_file : File :=
  Shapefile ["osmid"; "x"; "y"] [node 1 0 0; node 2 500 0; node 3 2000 0].
Definition edges_file : File :=
  Shapefile ["u"; "v"; "length"] [edge 1 2 500; edge 2 3 1500].
Definition dangling_edges_file : File :=
  Shapefile ["u"; "v"; "length"] [edge 1 2 500; edge 2 9 1500].
Definition parks_file : File := Shapefile [] [shape (point 10 0)].
Definition buildings_file : File :=
  Shapefile [] [shape (point 490 5); shape (point 1990 0)].
Definition buildings_file' : File :=
  Shapefile [] [shape empty; shape (point 1990 0)].

Definition data_folder : Path := ["data"].
Definition fig_folder : Path := ["fig"].

Definition city_files (city : string) (nodes edges parks buildings : File)
    : list (Path * File) :=
  [ (data_folder </> city </> ("nodes_" +:+ city +:+ ".shp"), nodes);
    (data_folder </> city </> ("edges_" +:+ city +:+ ".shp"), edges);
    (data_folder </> city </> ("parks_" +:+ city +:+ ".shp"), parks);
    (data_folder </> city </> ("buildings_" +:+ city +:+ ".shp"), buildings) ].

Definition files : gmap Path File :=
  list_to_map
    (city_files "Delft" nodes_file edges_file parks_file buildings_file
     ++ city_files "Gouda" nodes_file Corrupt parks_file buildings_file).

(** A fresh kernel on the data folder. *)
Definition fresh (d : gmap Path File) : World :=
  {| heap := []; disk := d; writable := λ _, true; figures := ∅; trace := [] |}.

Definition world : World := fresh files.

(** The four layers of a city, already loaded. *)
Definition loaded (nodes edges parks buildings : File) : World :=
  let frame (f : File) :=
    match f with
    | Shapefile cols fs => frame_of cols fs
    | Corrupt | Directory => mkGDF [] []
    end in
  {| heap := [frame nodes; frame edges; frame parks; frame buildings];
     disk := ∅; writable := λ _, true; figures := ∅; trace := [] |}.

Definition delft : World := loaded nodes_file edges_file parks_file buildings_file.

(** Leiden's layers, loaded: an edge refers to a node 9 that does not exist. *)
Definition leiden : World :=
  loaded nodes_file dangling_edges_file parks_file buildings_file.

(** Delft, with a first building that has no geometry. *)
Definition delft' : World := loaded nodes_file edges_file parks_file buildings_file'.

(** The same Delft, as the only city of a data folder. *)
Definition files' : gmap Path File :=
  list_to_map (city_files "Delft" nodes_file edges_file parks_file buildings_file').

Definition world' : World := fresh files'.

(** The graph of Delft, as [build_network] builds it. *)
Definition delft_network : Network :=
  match (build_network 0 1 2 delft).1 with
  | Ok net => net
  | Err _ => mkNetwork [] [] [] [] [] ∅ ∅
  end.

End Data.

(** ** Notions used to state the properties *)

Definition within_registration (evs : list Event) : Prop :=
  ∀ i distance category num_pois,
    evs !! i = Some (EvNearestPois distance category num_pois) →
    ∃ j maxdist maxitems,
      (j < i)%nat ∧ evs !! j = Some (EvSetPois category maxdist maxitems)
      ∧ distance ≤ maxdist ∧ (num_pois ≤ maxitems)%nat.

Definition proximity_events : list Event :=
  [EvNetwork; EvSetPois "parks" 1000 25; EvNearestPois 800 "parks" 3].

(** What [accessibility_analysis] does to the world, given the series it
    assigns (or the exception it raises). *)
Definition assigned (b : loc) (fb : GeoDataFrame) (r : result Series)
    (evs : list Event) (w : World) : result loc * World :=
  match r with
  | Ok s => (Ok b, add_events evs
                     (set_heap (<[b := set_column fb "accessibility" (s_values s)]> (heap w)) w))
  | Err x => (Err x, add_events evs w)
  end.

(** The node layer has identifiers and coordinates, the edge layer has
    endpoints and a weight. *)
Definition node_layer (fn : GeoDataFrame) : Prop :=
  "osmid" ∈ columns fn ∧ "x" ∈ columns fn ∧ "y" ∈ columns fn.
Definition edge_layer (fe : GeoDataFrame) : Prop :=
  "u" ∈ columns fe ∧ "v" ∈ columns fe ∧ "length" ∈ columns fe.





(** The claim that a building whose snap resolves is scored whatever
    happens to the other buildings. *)
Definition snap_failures_are_isolated : Prop :=
  ∀ (R : Router) (n e p b : loc) (d : Z) (w : World) (net0 : Network)
    (fp fb : GeoDataFrame) (park_ids : Series) (i : nat) (building : Row) (node : Val),
    (build_network n e p w).1 = Ok net0 → heap w !! p = Some fp →
    snap_all R net0 (centroid_x fp) (centroid_y fp) = Ok park_ids →
    heap w !! b = Some fb → rows fb !! i = Some building →
    nearest_node R (with_variable net0 "parks" park_ids)
      (coord_x (geometry building)) (coord_y (geometry building)) = Some node →
    ∃ fb' scored,
      heap (accessibility_analysis R n e p b d w).2 !! b = Some fb'
      ∧ rows fb' !! i = Some scored
      ∧ is_Some (attrs scored !! "accessibility").

(** The path of a layer of a city. *)
Definition layer_path (data_folder : Path) (city features : string) : Path :=
  data_folder ++ [city; features +:+ "_" +:+ city +:+ ".shp"].

(** What reading a path gives. *)
Definition file_frame (d : gmap Path File) (p : Path) : result GeoDataFrame :=
  match d !! p with
  | None => Err NotFound
  | Some Corrupt | Some Directory => Err FormatError
  | Some (Shapefile cols fs) => Ok (frame_of cols fs)
  end.

(** A world that holds the given frames and nothing else. *)
Definition world_of (frames : list GeoDataFrame) : World :=
  {| heap := frames; disk := ∅; writable := λ _, false; figures := ∅; trace := [] |}.

(** The proximity table of three layers, and the buildings layer as
    [accessibility_analysis] leaves it. *)
Definition proximity_of (R : Router) (fn fe fp : GeoDataFrame) : result Table :=
  (proximity_analysis R 0 1 2 (world_of [fn; fe; fp])).1.

Definition accessibility_of (R : Router) (fn fe fp fb : GeoDataFrame) (d : Z)
    : result GeoDataFrame :=
  let r := accessibility_analysis R 0 1 2 3 d (world_of [fn; fe; fp; fb]) in
  match r.1 with
  | Ok l => match heap r.2 !! l with Some df => Ok df | None => Err TypeError end
  | Err x => Err x
  end.

(** What the serial cells leave bound: the proximity table once the
    proximity cell has run, the scored buildings once the accessibility cell
    has run; a function of the data folder. *)
Definition serial_outcome (R : Router) (d : gmap Path File) (data_folder : Path)
    (city : string) : option Table * option GeoDataFrame :=
  match file_frame d (layer_path data_folder city "parks"),
        file_frame d (layer_path data_folder city "nodes"),
        file_frame d (layer_path data_folder city "edges"),
        file_frame d (layer_path data_folder city "buildings") with
  | Ok fp, Ok fn, Ok fe, Ok fb =>
      match proximity_of R fn fe fp with
      | Ok t =>
          (Some t,
           match accessibility_of R fn fe fp fb 800 with
           | Ok fb' => Some fb'
           | Err _ => None
           end)
      | Err _ => (None, None)
      end
  | _, _, _, _ => (None, None)
  end.

(** Both results, or nothing. *)
Definition both {A B} (o : option A * option B) : option (A * B) :=
  match o with
  | (Some a, Some b) => Some (a, b)
  | _ => None
  end.

(** What the one [dask.compute] statement of the lazy cells binds: the
    proximity table and the buildings frame with its scores; nothing when
    the evaluation raised. *)
Definition pipeline_outcome (R : Router) (d : gmap Path File) (data_folder : Path)
    (city : string) : option (Table * GeoDataFrame) :=
  match file_frame d (layer_path data_folder city "nodes"),
        file_frame d (layer_path data_folder city "edges"),
        file_frame d (layer_path data_folder city "parks"),
        file_frame d (layer_path data_folder city "buildings") with
  | Ok fn, Ok fe, Ok fp, Ok fb =>
      match proximity_of R fn fe fp, accessibility_of R fn fe fp fb 800 with
      | Ok t, Ok fb' => Some (t, fb')
      | _, _ => None
      end
  | _, _, _, _ => None
  end.

Definition observed (w : World) (proximity : Table) (accessibility : loc)
    : option (Table * GeoDataFrame) :=
  df ← heap w !! accessibility; Some (proximity, df).

(** What the kernel shows after the serial cells: the variable [proximity]
    and the frame behind the variable [accessibility], each if bound. *)
Definition observe_serial (r : (Vars * option Exc) * World)
    : option Table * option GeoDataFrame :=
  (var_proximity r.1.1, l ← var_accessibility r.1.1; heap r.2 !! l).

(** [proximity, accessibility = dask.compute(proximity_p, accessibility_p)] *)
Definition observe_lazy (r : result (list Value) * World) : option (Table * GeoDataFrame) :=
  match r.1 with
  | Ok [VTable proximity; VRef accessibility] => observed r.2 proximity accessibility
  | _ => None
  end.

(** The same, for [dask.compute(accessibility_p, proximity_p)]. *)
Definition observe_lazy_swapped (r : result (list Value) * World)
    : option (Table * GeoDataFrame) :=
  match r.1 with
  | Ok [VRef accessibility; VTable proximity] => observed r.2 proximity accessibility
  | _ => None
  end.

(** The claim that the lazy run shows what the serial run shows, on every
    input. *)
Definition lazy_matches_serial_on_every_input : Prop :=
  ∀ (R : Router) (data_folder : Path) (city : string) (w : World)
    (proximity_p accessibility_p : Delayed),
    (lazy_cells data_folder city w).1 = Ok (proximity_p, accessibility_p) →
    match observe_lazy (compute R [proximity_p; accessibility_p] w) with
    | Some (proximity, accessibility) => (Some proximity, Some accessibility)
    | None => (None, None)
    end
    = observe_serial (run_cells (serial_cells R data_folder city) no_vars w).

(** The buildings frame a run of [accessibility_analysis] returns. *)
Definition scored (r : result loc * World) : option GeoDataFrame :=
  match r.1 with
  | Ok l => heap r.2 !! l
  | Err _ => None
  end.

(** Code that leaves the data folder as it is. *)
Definition keeps_disk {A} (m : M A) : Prop := ∀ w, disk (m w).2 = disk w.

(** The path of the figure of a city. *)
Definition figure_path (fig_folder : Path) (city : string) : Path :=
  fig_folder ++ [city +:+ ".png"].

(** The tasks of partition [i] of the batch, for the city it holds. *)
Definition city_tasks (data_folder fig_folder : Path) (i : nat) (city : string) : Delayed :=
  let load (name features : string) :=
    DCall (name, i) FLoadFeatures
      [DConst (VPath data_folder); DConst (VStr city); DConst (VStr features)] in
  DCall ("res", i) FPlot
    [DConst (VStr city);
     load "parks_bag" "parks";
     DCall ("accessibility_bag", i) FAccessibilityAnalysis
       [load "nodes_bag" "nodes"; load "edges_bag" "edges"; load "parks_bag" "parks";
        load "buildings_bag" "buildings"];
     DConst (VPath fig_folder)].

(** The figure of a city, or the exception its tasks raise: a function of
    the data folder and of where figures may be written. *)
Definition city_figure (R : Router) (d : gmap Path File) (wr : Path → bool)
    (data_folder fig_folder : Path) (city : string) : result Figure :=
  rbind (file_frame d (layer_path data_folder city "parks")) (λ fp,
  rbind (file_frame d (layer_path data_folder city "nodes")) (λ fn,
  rbind (file_frame d (layer_path data_folder city "edges")) (λ fe,
  rbind (file_frame d (layer_path data_folder city "buildings")) (λ fb,
  rbind (accessibility_of R fn fe fp fb 800) (λ fb1,
  rbind (getitem fb1 "accessibility") (λ acc,
  if wr (figure_path fig_folder city)
  then Ok {| fig_parks := geometry <$> rows fp;
             fig_buildings := zip (geometry <$> rows fb1) (s_values acc) |}
  else Err IOError)))))).


(** ** The external calls of a run *)

(** The engine calls of a successful [accessibility_analysis]. *)
Definition accessibility_events (d : Z) : list Event :=
  [EvNetwork; EvSetPois "parks" 1000 25; EvGetNodeIds; EvSet "parks";
   EvAggregate d "count" "parks"; EvGetNodeIds].

(** The external calls of the serial cells when they run to their end, in
    the order of the cells. *)
Definition serial_events (data_folder : Path) (city : string) : list Event :=
  [EvRead (layer_path data_folder city "parks");
   EvRead (layer_path data_folder city "nodes");
   EvRead (layer_path data_folder city "edges");
   EvRead (layer_path data_folder city "buildings")]
  ++ proximity_events ++ accessibility_events 800.

(** The external calls of the task graph of the lazy cells, when the
    proximity target is evaluated first. *)
Definition lazy_events (data_folder : Path) (city : string) : list Event :=
  [EvRead (layer_path data_folder city "nodes");
   EvRead (layer_path data_folder city "edges");
   EvRead (layer_path data_folder city "parks")]
  ++ proximity_events
  ++ [EvRead (layer_path data_folder city "buildings")]
  ++ accessibility_events 800.

(** The external calls of the tasks of one city of the batch. *)
Definition city_events (data_folder fig_folder : Path) (city : string) : list Event :=
  [EvRead (layer_path data_folder city "parks");
   EvRead (layer_path data_folder city "nodes");
   EvRead (layer_path data_folder city "edges");
   EvRead (layer_path data_folder city "buildings")]
  ++ accessibility_events 800
  ++ [EvSaveFig (figure_path fig_folder city)].

(** ** More data

    Variations on Delft, and data folders that hold Delft alone, Delft and
    a stray file, an empty directory, and nothing. *)
Module Cases.
Import Data.

Definition nodes_file_no_y : File :=
  Shapefile ["osmid"; "x"] [node 1 0 0; node 2 500 0; node 3 2000 0].

(** Delft, with a node layer that has no y column. *)
Definition delft_no_y : World :=
  loaded nodes_file_no_y edges_file parks_file buildings_file.

Definition building (x y height : Z) : Feature :=
  mkFeature (point x y) {["height" := VNum height]}.

Definition buildings_file_heights : File :=
  Shapefile ["height"] [building 490 5 12; building 1990 0 7].

(** Delft, with buildings that carry a height. *)
Definition delft_heights : World :=
  loaded nodes_file edges_file parks_file buildings_file_heights.

Definition delft_files : gmap Path File :=
  list_to_map (city_files "Delft" nodes_file edges_file parks_file buildings_file).

Definition delft_only : World := fresh delft_files.

Definition stray_files : gmap Path File :=
  <[data_folder </> "README.txt" := Corrupt]> delft_files.

Definition delft_and_readme : World := fresh stray_files.

Definition nothing : World := fresh ∅.

(** A data folder that holds one directory, with nothing in it. *)
Definition empty_directory : World :=
  fresh {[data_folder </> "Empty" := Directory]}.

End Cases.

(** * Properties *)

Import Data.

(** ** Running Python code symbolically *)

Lemma world_eta w :
  {| heap := heap w; disk := disk w; writable := writable w;
     figures := figures w; trace := trace w |} = w.
Proof. by destruct w. Qed.

Lemma add_events_nil w : add_events [] w = w.
Proof. destruct w; unfold add_events; simpl. by rewrite app_nil_r. Qed.

Lemma add_events_app e1 e2 w : add_events e2 (add_events e1 w) = add_events (e1 ++ e2) w.
Proof. unfold add_events; simpl. by rewrite app_assoc. Qed.

(** Unfolds the monad and splits on every outcome of every step. *)
Ltac run_M :=
  repeat first
    [ progress (cbn [bind ret raise lift log deref alloc store fst snd])
    | progress (unfold bind, ret, raise, lift, log, deref, alloc, store)
    | case_match; simplify_eq/= ].

(** Closes a goal that equates two descriptions of the same world. *)
Ltac same_world :=
  unfold add_events, set_heap, set_figures; simpl;
  rewrite <- ?app_assoc, ?app_nil_r, ?world_eta; simpl;
  try reflexivity.

(** Closes a goal that asks for the events a run has added. *)
Ltac some_events :=
  eexists; unfold add_events, set_heap; simpl; rewrite <- ?app_assoc; simpl; reflexivity.

(** ** Frames and series *)

Section frames.
Implicit Types (df : GeoDataFrame) (s : Series) (col : string).

Lemma index_centroid_x df : s_index (centroid_x df) = index df.
Proof. unfold s_index, centroid_x, index. by rewrite <- list_fmap_compose. Qed.

Lemma index_centroid_y df : s_index (centroid_y df) = index df.
Proof. unfold s_index, centroid_y, index. by rewrite <- list_fmap_compose. Qed.

Lemma series_map_index s d : s_index (series_map s d) = s_index s.
Proof. unfold s_index, series_map. by rewrite <- list_fmap_compose. Qed.

Lemma length_s_index s : length (s_index s) = length s.
Proof. apply length_fmap. Qed.

Lemma length_s_values s : length (s_values s) = length s.
Proof. apply length_fmap. Qed.

Lemma length_index df : length (index df) = length (rows df).
Proof. apply length_fmap. Qed.

(** Assigning a series that carries the frame's own index is positional. *)
Lemma setitem_aligned df col s :
  s_index s = index df → setitem df col s = Ok (set_column df col (s_values s)).
Proof. intros Hi. unfold setitem. by rewrite decide_True. Qed.

Lemma set_column_rows df col vals i :
  length vals = length (rows df) →
  rows (set_column df col vals) !! i =
    r ← rows df !! i; v ← vals !! i;
    Some {| label := label r; geometry := geometry r; attrs := <[col := v]> (attrs r) |}.
Proof.
  intros Hlen. unfold set_column; simpl. rewrite lookup_zip_with.
  destruct (rows df !! i); simpl; [|done]. by destruct (vals !! i).
Qed.

Lemma set_column_length df col vals :
  length vals = length (rows df) →
  length (rows (set_column df col vals)) = length (rows df).
Proof. intros Hlen. unfold set_column; simpl. rewrite length_zip_with. lia. Qed.

Lemma set_column_index df col vals :
  length vals = length (rows df) → index (set_column df col vals) = index df.
Proof.
  intros Hlen. unfold index. apply list_eq; intros i.
  rewrite !list_lookup_fmap, set_column_rows by done.
  destruct (rows df !! i) as [r|] eqn:Hr; simpl; [|done].
  destruct (vals !! i) eqn:Hv; simpl; [done|].
  apply lookup_lt_Some in Hr. apply lookup_ge_None in Hv. lia.
Qed.

Lemma set_column_geometry df col vals :
  length vals = length (rows df) →
  geometry <$> rows (set_column df col vals) = geometry <$> rows df.
Proof.
  intros Hlen. apply list_eq; intros i.
  rewrite !list_lookup_fmap, set_column_rows by done.
  destruct (rows df !! i) as [r|] eqn:Hr; simpl; [|done].
  destruct (vals !! i) eqn:Hv; simpl; [done|].
  apply lookup_lt_Some in Hr. apply lookup_ge_None in Hv. lia.
Qed.

Lemma set_column_centroid_x df col vals :
  length vals = length (rows df) →
  centroid_x (set_column df col vals) = centroid_x df.
Proof.
  intros Hlen. unfold centroid_x. apply list_eq; intros i.
  rewrite !list_lookup_fmap, set_column_rows by done.
  destruct (rows df !! i) as [r|] eqn:Hr; simpl; [|done].
  destruct (vals !! i) eqn:Hv; simpl; [done|].
  apply lookup_lt_Some in Hr. apply lookup_ge_None in Hv. lia.
Qed.

Lemma set_column_centroid_y df col vals :
  length vals = length (rows df) →
  centroid_y (set_column df col vals) = centroid_y df.
Proof.
  intros Hlen. unfold centroid_y. apply list_eq; intros i.
  rewrite !list_lookup_fmap, set_column_rows by done.
  destruct (rows df !! i) as [r|] eqn:Hr; simpl; [|done].
  destruct (vals !! i) eqn:Hv; simpl; [done|].
  apply lookup_lt_Some in Hr. apply lookup_ge_None in Hv. lia.
Qed.



(** Writing the same column twice is writing it once. *)
Lemma set_column_twice df col vals :
  set_column (set_column df col vals) col vals = set_column df col vals.
Proof.
  unfold set_column; simpl. f_equal.
  - repeat case_decide; try done.
    exfalso. select (_ ∉ _ ++ _) (fun H => apply H). apply elem_of_app. right.
    by apply list_elem_of_singleton.
  - generalize (rows df). clear. induction vals as [|v vals IH]; intros [|r rs]; simpl; try done.
    rewrite IH. by rewrite insert_insert_eq.
Qed.

End frames.

(** ** The engine calls *)

Section engine_facts.
Variable R : Router.

(** The snapped series carries the index of the x column. *)
Lemma snap_all_index net (xs ys : Series) ids :
  length xs = length ys →
  snap_all R net xs ys = Ok ids → s_index ids = s_index xs.
Proof.
  unfold snap_all.
  revert ys ids. induction xs as [|x xs IH]; intros [|y ys] ids Hlen; simpl in *; try done.
  - by intros [= <-].
  - unfold snap at 1. destruct (nearest_node R net x.2 y.2); simpl; [|done].
    destruct (rmapM _ _) as [ids'|] eqn:Hids; simpl; [|done].
    intros [= <-]. simpl. f_equal. eapply IH; [|done]. lia.
Qed.

Lemma snap_failure net (xs ys : Series) i x y :
  length xs = length ys →
  xs !! i = Some x → ys !! i = Some y → nearest_node R net x.2 y.2 = None →
  snap_all R net xs ys = Err LookupError.
Proof.
  unfold snap_all.
  revert ys i. induction xs as [|x' xs IH]; intros [|y' ys] i Hlen Hx Hy Hn; simpl in *; try done.
  destruct i as [|i]; simpl in *.
  - simplify_eq. unfold snap. by rewrite Hn.
  - unfold snap at 1. destruct (nearest_node R net x'.2 y'.2); simpl; [|done].
    erewrite IH; [done| |done..]. lia.
Qed.

Lemma snap_all_lookup net (xs ys : Series) ids i x y :
  snap_all R net xs ys = Ok ids →
  xs !! i = Some x → ys !! i = Some y →
  ∃ node, nearest_node R net x.2 y.2 = Some node ∧ ids !! i = Some (x.1, node).
Proof.
  unfold snap_all.
  revert ys ids i. induction xs as [|x' xs IH]; intros [|y' ys] ids i; simpl in *; try done.
  unfold snap at 1. destruct (nearest_node R net x'.2 y'.2) eqn:Hn; simpl; [|done].
  destruct (rmapM _ _) as [ids'|] eqn:Hids; simpl; [|done].
  intros [= <-] Hx Hy. destruct i as [|i]; simpl in *.
  - simplify_eq. eauto.
  - eapply IH; eauto.
Qed.

End engine_facts.

(** ** The feature loader *)

Lemma load_features_run data_folder city features w :
  load_features data_folder city features w =
    let p := layer_path data_folder city features in
    match file_frame (disk w) p with
    | Ok df => (Ok (length (heap w)), set_heap (heap w ++ [df]) (add_events [EvRead p] w))
    | Err x => (Err x, add_events [EvRead p] w)
    end.
Proof.
  unfold load_features, read_file, layer_path, path_join, file_frame.
  rewrite <- app_assoc. simpl. unfold bind, log, alloc, raise. simpl.
  by destruct (disk w !! _) as [[]|].
Qed.

(** C9. [load_features] reads exactly the file
    [<data_folder>/<city>/<features>_<city>.shp]: it returns a new frame holding
    that file's geometry collection, fails with NotFound when the file is
    absent and with FormatError when it does not parse (unreadable bytes, or
    a directory in the file's place), and has no effect
    beyond that one read (the data folder, the figures and the frames already
    loaded are as before). *)
Theorem load_features_contract (data_folder : Path) (city features : string) (w : World) :
  let file_path := data_folder ++ [city; features +:+ "_" +:+ city +:+ ".shp"] in
  let run := load_features data_folder city features w in
  trace run.2 = trace w ++ [EvRead file_path]
  ∧ disk run.2 = disk w ∧ figures run.2 = figures w ∧ writable run.2 = writable w
  ∧ match disk w !! file_path with
    | None => run.1 = Err NotFound ∧ heap run.2 = heap w
    | Some Corrupt | Some Directory => run.1 = Err FormatError ∧ heap run.2 = heap w
    | Some (Shapefile cols fs) =>
        run.1 = Ok (length (heap w))
        ∧ heap run.2 = heap w ++ [frame_of cols fs]
        ∧ columns (frame_of cols fs) = cols
        ∧ geometry <$> rows (frame_of cols fs) = f_geometry <$> fs
        ∧ attrs <$> rows (frame_of cols fs) = f_attrs <$> fs
    end.
Proof.
  intros file_path run. subst run. rewrite load_features_run.
  unfold file_frame, layer_path. fold file_path. cbn zeta.
  destruct (disk w !! file_path) as [[cols fs| |]|]; simpl; try done.
  repeat split; unfold frame_of; simpl; rewrite fmap_imap; apply imap_const.
Qed.

(** ** The stages depend on the frames only *)

(** The outcome of [build_network] is a function of the three frames it is
    given; in the world it only leaves events. *)
Lemma build_network_local fn fe fp :
  ∃ r evs, ∀ w n e p,
    heap w !! n = Some fn → heap w !! e = Some fe → heap w !! p = Some fp →
    build_network n e p w = (r, add_events evs w).
Proof.
  pose (w0 := {| heap := [fn; fe; fp]; disk := ∅; writable := λ _, true;
                 figures := ∅; trace := [] |}).
  exists (build_network 0 1 2 w0).1, (trace (build_network 0 1 2 w0).2).
  intros w n e p Hn He Hp.
  unfold build_network, pandana_Network, set_pois.
  run_M; same_world.
Qed.

Section stages.
Variable R : Router.

Lemma proximity_analysis_local fn fe fp :
  ∃ r evs, ∀ w n e p,
    heap w !! n = Some fn → heap w !! e = Some fe → heap w !! p = Some fp →
    proximity_analysis R n e p w = (r, add_events evs w).
Proof.
  destruct (build_network_local fn fe fp) as (r0 & evs0 & Hnet).
  pose (w0 := {| heap := []; disk := ∅; writable := λ _, true;
                 figures := ∅; trace := [] |}).
  destruct r0 as [net|x].
  - exists (nearest_pois R net 800 "parks" 3 w0).1,
           (evs0 ++ trace (nearest_pois R net 800 "parks" 3 w0).2).
    intros w n e p Hn He Hp. unfold proximity_analysis, bind.
    rewrite (Hnet w n e p) by done. unfold nearest_pois.
    run_M; same_world.
  - exists (Err x), evs0. intros w n e p Hn He Hp. unfold proximity_analysis, bind.
    by rewrite (Hnet w n e p).
Qed.

Lemma length_centroids fb : length (centroid_x fb) = length (centroid_y fb).
Proof. unfold centroid_x, centroid_y. by rewrite !length_fmap. Qed.

(** The series [accessibility_analysis] assigns is a function of the
    nodes, edges and parks frames and of the centroids of the buildings; it
    carries the index of the buildings. *)
Lemma accessibility_analysis_local fn fe fp fb d :
  ∃ r evs,
    (∀ s, r = Ok s → s_index s = index fb) ∧
    ∀ fb' w n e p b,
      centroid_x fb' = centroid_x fb → centroid_y fb' = centroid_y fb →
      heap w !! n = Some fn → heap w !! e = Some fe → heap w !! p = Some fp →
      heap w !! b = Some fb' →
      accessibility_analysis R n e p b d w = assigned b fb' r evs w.
Proof.
  destruct (build_network_local fn fe fp) as (r0 & evs0 & Hnet).
  destruct r0 as [net0|x]; cycle 1.
  { exists (Err x), evs0. split; [done|]. intros fb' w n e p b _ _ Hn He Hp Hb.
    unfold accessibility_analysis, bind. by rewrite (Hnet w n e p). }
  destruct (snap_all R net0 (centroid_x fp) (centroid_y fp)) as [pids|x] eqn:Hpids; cycle 1.
  { exists (Err x), (evs0 ++ [EvGetNodeIds]). split; [done|].
    intros fb' w n e p b _ _ Hn He Hp Hb.
    unfold accessibility_analysis, bind at 1. rewrite (Hnet w n e p) by done.
    unfold get_node_ids. unfold bind, deref, log, lift; simpl. rewrite Hp, Hpids.
    by same_world. }
  set (net := with_variable net0 "parks" pids).
  set (acc := aggregate_table R net "count" "parks" d).
  set (evs := evs0 ++ [EvGetNodeIds; EvSet "parks"; EvAggregate d "count" "parks";
                       EvGetNodeIds]).
  assert (Hidx : ∀ bids, snap_all R net (centroid_x fb) (centroid_y fb) = Ok bids →
                         s_index (series_map bids (to_dict acc)) = index fb).
  { intros bids Hbids. rewrite series_map_index.
    erewrite snap_all_index; [apply index_centroid_x|apply length_centroids|done]. }
  exists (rbind (snap_all R net (centroid_x fb) (centroid_y fb))
                (λ bids, Ok (series_map bids (to_dict acc)))), evs.
  split.
  { intros s Hs. destruct (snap_all R net _ _) eqn:Hbids; simplify_eq/=. by apply Hidx. }
  intros fb' w n e p b Hx Hy Hn He Hp Hb.
  unfold accessibility_analysis, bind at 1. rewrite (Hnet w n e p) by done.
  unfold get_node_ids, network_set, aggregate, setitem_at.
  unfold bind, deref, log, lift, ret, raise, store; simpl.
  rewrite Hp, Hpids; simpl. rewrite lookup_insert_eq; simpl.
  rewrite Hb, Hx, Hy. fold net. fold acc.
  destruct (snap_all R net (centroid_x fb) (centroid_y fb)) as [bids|x] eqn:Hbids; simpl;
    [|by same_world].
  rewrite Hb. rewrite setitem_aligned; [by same_world|].
  by rewrite (Hidx bids), <- index_centroid_x, <- Hx, index_centroid_x.
Qed.

End stages.

(** ** The registration bounds of the parks *)

Lemma prefix_cases {A} (l : list A) a b c :
  l `prefix_of` [a; b; c] → l = [] ∨ l = [a] ∨ l = [a; b] ∨ l = [a; b; c].
Proof.
  intros [k Hk]. destruct l as [|x1 [|x2 [|x3 [|x4 l]]]]; simplify_eq/=; auto.
Qed.

Lemma proximity_events_within evs :
  evs `prefix_of` proximity_events → within_registration evs.
Proof.
  intros Hpre i d c k Hi.
  apply prefix_cases in Hpre as [-> | [-> | [-> | ->]]];
    repeat (destruct i as [|i]; simplify_eq/=).
  exists 1%nat, 1000, 25%nat. repeat split; [lia|lia|lia].
Qed.

Section registration.
Variable R : Router.

Lemma build_network_pois n e p w net :
  (build_network n e p w).1 = Ok net →
  ∃ x_col y_col, pois net = {["parks" := mkPoiSet 1000 25 x_col y_col]}
                 ∧ variables net = ∅.
Proof.
  unfold build_network, pandana_Network, set_pois. run_M.
  all: intros; simplify_eq/=. eauto.
Qed.

(** C10. In every run of [proximity_analysis] the parks are registered
    with the fixed bounds maxdist = 1000 and maxitems = 25, and the
    nearest-POI query that follows asks for distance 800 and 3 POIs, within
    those bounds. *)
Theorem registration_bounds_respected (n e p : loc) (w : World) :
  (∃ evs, trace (proximity_analysis R n e p w).2 = trace w ++ evs
          ∧ evs `prefix_of` proximity_events
          ∧ (is_ok (proximity_analysis R n e p w).1 → evs = proximity_events)
          ∧ within_registration evs)
  ∧ (∀ net, (build_network n e p w).1 = Ok net →
       ∃ x_col y_col, pois net !! "parks" = Some (mkPoiSet 1000 25 x_col y_col)).
Proof.
  split; cycle 1.
  { intros net Hnet. apply build_network_pois in Hnet as (x & y & -> & _).
    exists x, y. apply lookup_singleton_eq. }
  cut (∃ evs, trace (proximity_analysis R n e p w).2 = trace w ++ evs
          ∧ evs `prefix_of` proximity_events
          ∧ (is_ok (proximity_analysis R n e p w).1 → evs = proximity_events)).
  { intros (evs & ? & ? & ?). exists evs. eauto using proximity_events_within. }
  unfold proximity_analysis, build_network, nearest_pois, pandana_Network, set_pois.
  unfold proximity_events.
  run_M; rewrite <- ?app_assoc; simpl.
  all: try (eexists; split; [reflexivity|]; split; [by repeat apply prefix_cons; apply prefix_nil | done]).
  all: exists []; rewrite app_nil_r; split; [done|]; split; [apply prefix_nil|done].
Qed.
End registration.

(** ** The proximity table *)

Lemma to_dict_tabulate (f : Val → Val) (ks : list Val) (k : Val) :
  to_dict ((λ k, (k, f k)) <$> ks) !! k = if decide (k ∈ ks) then Some (f k) else None.
Proof.
  unfold to_dict.
  cut (∀ m : gmap Val Val,
         foldl (λ d kv, <[kv.1 := kv.2]> d) m ((λ k, (k, f k)) <$> ks) !! k
         = if decide (k ∈ ks) then Some (f k) else m !! k).
  { intros H. rewrite H. by case_decide. }
  induction ks as [|k' ks IH]; intros m.
  - done.
  - rewrite fmap_cons. simpl. rewrite IH.
    destruct (decide (k ∈ ks)) as [Hin|Hin].
    + rewrite decide_True; [done|]. by right.
    + destruct (decide (k = k')) as [->|Hne].
      * rewrite decide_True by left. apply lookup_insert_eq.
      * rewrite decide_False; [by apply lookup_insert_ne|].
        rewrite elem_of_cons. by intros [?|?].
Qed.

Section frames2.

Lemma getitem_ok df col :
  col ∈ columns df → getitem df col = Ok ((λ r, (label r, cell r col)) <$> rows df).
Proof. intros H. unfold getitem. by rewrite decide_True. Qed.
End frames2.

Section proximity.
Variable R : Router.

Lemma slots_length net category distance num_pois node :
  length (slots R net category distance num_pois node) = num_pois.
Proof. unfold slots. rewrite length_app, length_replicate, length_take. lia. Qed.

Lemma slots_entries net category distance num_pois node x :
  x ∈ slots R net category distance num_pois node →
  (x ∈ poi_distances R net category node ∧ x ≤ distance) ∨ x = not_found R distance.
Proof.
  unfold slots, pois_within. rewrite elem_of_app. intros [Hx|Hx].
  - left. apply elem_of_take in Hx as (i & Hx & _).
    apply list_elem_of_lookup_2 in Hx. by apply list_elem_of_filter in Hx as [? ?].
  - right. by apply elem_of_replicate in Hx as [? _].
Qed.

Lemma slots_none net category distance num_pois node :
  Forall (λ x, distance < x) (poi_distances R net category node) →
  slots R net category distance num_pois node = replicate num_pois (not_found R distance).
Proof.
  intros Hfar. unfold slots, pois_within.
  assert (filter (λ x, x ≤ distance) (poi_distances R net category node) = []) as ->.
  { induction Hfar as [|x l Hx _ IH]; [done|].
    rewrite filter_cons_False; [done|lia]. }
  rewrite take_nil. simpl. by rewrite Nat.sub_0_r.
Qed.

Lemma proximity_analysis_result n e p w :
  (proximity_analysis R n e p w).1 =
    rbind (build_network n e p w).1 (λ net, Ok (proximity_table R net "parks" 800 3)).
Proof.
  unfold proximity_analysis, bind.
  destruct (build_network n e p w) as [[net|x] w'] eqn:Hnet; simpl; [|done].
  assert ((build_network n e p w).1 = Ok net) as Hnet' by by rewrite Hnet.
  apply build_network_pois in Hnet' as (x & y & Hpois & _).
  unfold nearest_pois, bind, log, ret. simpl. rewrite Hpois, lookup_singleton_eq. done.
Qed.

(** C2. The table returned by [proximity_analysis] has one row per graph
    node and exactly 3 distance columns; every entry is a distance to a park
    that is at most 800, or the not-found sentinel; the row of a node with no
    park within 800 holds the sentinel in all three slots. *)
Theorem proximity_table_shape (n e p : loc) (w : World) (tbl : Table) :
  (proximity_analysis R n e p w).1 = Ok tbl →
  ∃ net, (build_network n e p w).1 = Ok net
    ∧ tbl.*1 = node_ids_of net
    ∧ ∀ node row, (node, row) ∈ tbl →
        length row = 3%nat
        ∧ Forall (λ x, (x ∈ poi_distances R net "parks" node ∧ x ≤ 800)
                       ∨ x = not_found R 800) row
        ∧ (Forall (λ x, 800 < x) (poi_distances R net "parks" node) →
           row = replicate 3 (not_found R 800)).
Proof.
  rewrite proximity_analysis_result.
  destruct (build_network n e p w).1 as [net|x]; simpl; [|done].
  intros [= <-]. exists net. split; [done|]. unfold proximity_table. split.
  { rewrite <- list_fmap_compose. apply list_fmap_id. }
  intros node row Hrow. apply list_elem_of_fmap in Hrow as (node' & [= -> ->] & _).
  split; [apply slots_length|]. split; [|apply slots_none].
  apply Forall_forall. intros x. apply slots_entries.
Qed.
End proximity.

(** The proximity table of Delft: node 1 has the park at 0 m, node 2 at
    500 m, node 3 has no park within reach. *)
Lemma proximity_table_shape_witness :
  ∃ net, (build_network 0 1 2 Data.delft).1 = Ok net
    ∧ [(VNum 1, [0; 800; 800]); (VNum 2, [500; 800; 800]);
       (VNum 3, [800; 800; 800])].*1 = node_ids_of net
    ∧ ∀ node row, (node, row) ∈ [(VNum 1, [0; 800; 800]); (VNum 2, [500; 800; 800]);
                               (VNum 3, [800; 800; 800])] →
        length row = 3%nat
        ∧ Forall (λ x, (x ∈ poi_distances Ref.router net "parks" node ∧ x ≤ 800)
                       ∨ x = not_found Ref.router 800) row
        ∧ (Forall (λ x, 800 < x) (poi_distances Ref.router net "parks" node) →
           row = replicate 3 (not_found Ref.router 800)).
Proof.
  apply (proximity_table_shape Ref.router 0 1 2 Data.delft). vm_compute. reflexivity.
Defined.

(** ** Edges that refer to unknown nodes *)


Section integrity.
Variable R : Router.



End integrity.


(** In Leiden [build_network] returns a graph that holds the edge to the
    unknown node 9. *)
Example leiden_graph_is_built :
  is_ok (build_network 0 1 2 leiden).1 = true
  ∧ s_values <$> (edge_to <$> (match (build_network 0 1 2 leiden).1 with
                                | Ok net => Some net
                                | Err _ => None
                                end))
    = Some [VNum 2; VNum 9].
Proof. split; vm_compute; reflexivity. Qed.


(** ** The accessibility score of a building *)

Section scores.
Variable R : Router.

(** The steps of a successful [accessibility_analysis]. *)
Lemma accessibility_analysis_ok n e p b d w l w' :
  accessibility_analysis R n e p b d w = (Ok l, w') →
  ∃ net0 fp park_ids fb building_ids,
    (build_network n e p w).1 = Ok net0
    ∧ heap w !! p = Some fp ∧ heap w !! b = Some fb
    ∧ snap_all R net0 (centroid_x fp) (centroid_y fp) = Ok park_ids
    ∧ let net := with_variable net0 "parks" park_ids in
      snap_all R net (centroid_x fb) (centroid_y fb) = Ok building_ids
      ∧ l = b
      ∧ heap w' = <[b := set_column fb "accessibility"
                           (s_values (series_map building_ids
                              (to_dict (aggregate_table R net "count" "parks" d))))]>
                    (heap w).
Proof.
  unfold accessibility_analysis. unfold bind at 1.
  destruct (build_network n e p w) as [[net0|x] w0] eqn:Hnet; [|done].
  assert (heap w0 = heap w) as Hheap.
  { clear -Hnet. revert Hnet. unfold build_network, pandana_Network, set_pois.
    run_M; intros; by simplify_eq/=. }
  unfold get_node_ids, network_set, aggregate, setitem_at.
  unfold bind, deref, log, lift, ret, raise, store, add_events, set_heap; simpl.
  rewrite ?Hheap.
  destruct (heap w !! p) as [fp|] eqn:Hp; [|done].
  destruct (snap_all R net0 (centroid_x fp) (centroid_y fp)) as [pids|] eqn:Hpids; [|done].
  simpl. rewrite lookup_insert_eq. simpl. rewrite ?Hheap.
  destruct (heap w !! b) as [fb|] eqn:Hb; [|done].
  destruct (snap_all R _ (centroid_x fb) (centroid_y fb)) as [bids|] eqn:Hbids; [|done].
  simpl. rewrite ?Hheap, ?Hb.
  rewrite setitem_aligned; cycle 1.
  { rewrite series_map_index.
    erewrite snap_all_index; [apply index_centroid_x|apply length_centroids|done]. }
  intros [= <- <-]. exists net0, fp, pids, fb, bids. simpl. by rewrite ?Hheap.
Qed.

(** C1. After a successful [accessibility_analysis], every building
    carries, as its accessibility score, the count aggregate of the node that
    the nearest-node snap returns for the building's centroid (not a number
    when the engine has no value for that node). *)
Theorem score_is_count_at_nearest_node (n e p b : loc) (d : Z) (w w' : World) (l : loc) :
  accessibility_analysis R n e p b d w = (Ok l, w') →
  ∃ net0 fp park_ids fb fb',
    (build_network n e p w).1 = Ok net0
    ∧ heap w !! p = Some fp
    ∧ snap_all R net0 (centroid_x fp) (centroid_y fp) = Ok park_ids
    ∧ heap w !! b = Some fb ∧ l = b ∧ heap w' !! b = Some fb'
    ∧ length (rows fb') = length (rows fb)
    ∧ let net := with_variable net0 "parks" park_ids in
      ∀ i building, rows fb !! i = Some building →
        ∃ node scored,
          nearest_node R net (coord_x (geometry building)) (coord_y (geometry building))
            = Some node
          ∧ rows fb' !! i = Some scored
          ∧ label scored = label building ∧ geometry scored = geometry building
          ∧ cell scored "accessibility"
            = if decide (node ∈ node_ids_of net)
              then VNum (aggregate_value R net "count" "parks" d node)
              else VNaN.
Proof.
  intros Hrun.
  apply accessibility_analysis_ok in Hrun
    as (net0 & fp & pids & fb & bids & Hnet & Hp & Hb & Hpids & Hbids & -> & Hheap).
  simpl in Hbids.
  set (net := with_variable net0 "parks" pids) in *.
  set (vals := s_values (series_map bids (to_dict (aggregate_table R net "count" "parks" d)))) in *.
  assert (length vals = length (rows fb)) as Hlen.
  { unfold vals. rewrite length_s_values. unfold series_map. rewrite length_fmap.
    rewrite <- length_s_index. erewrite snap_all_index; [|apply length_centroids|done].
    by rewrite index_centroid_x, length_index. }
  exists net0, fp, pids, fb, (set_column fb "accessibility" vals).
  repeat (split; [done|]).
  split. { rewrite Hheap. apply list_lookup_insert_eq. by eapply lookup_lt_Some. }
  split. { by apply set_column_length. }
  cbv zeta. fold net. intros i building Hi.
  assert (centroid_x fb !! i = Some (label building, coord_x (geometry building))) as Hx.
  { unfold centroid_x. by rewrite list_lookup_fmap, Hi. }
  assert (centroid_y fb !! i = Some (label building, coord_y (geometry building))) as Hy.
  { unfold centroid_y. by rewrite list_lookup_fmap, Hi. }
  destruct (snap_all_lookup R net _ _ bids i _ _ Hbids Hx Hy) as (node & Hnode & Hid).
  simpl in *.
  assert (vals !! i = Some (default VNaN
            (to_dict (aggregate_table R net "count" "parks" d) !! node))) as Hv.
  { unfold vals, s_values, series_map. rewrite <- list_fmap_compose.
    by rewrite list_lookup_fmap, Hid. }
  pose proof (set_column_rows fb "accessibility" vals i Hlen) as Hrow.
  rewrite Hi, Hv in Hrow. simpl in Hrow.
  eexists node, _. split; [done|]. split; [exact Hrow|].
  simpl. repeat (split; [done|]).
  unfold cell; simpl. rewrite lookup_insert_eq. simpl.
  unfold aggregate_table.
  rewrite (to_dict_tabulate (λ n, VNum (aggregate_value R net "count" "parks" d n))).
  by case_decide.
Qed.
End scores.

(** The scores of the two buildings of Delft. *)
Lemma score_is_count_at_nearest_node_witness :
  ∃ net0 fp park_ids fb fb',
    (build_network 0 1 2 delft).1 = Ok net0
    ∧ heap delft !! 2%nat = Some fp
    ∧ snap_all Ref.router net0 (centroid_x fp) (centroid_y fp) = Ok park_ids
    ∧ heap delft !! 3%nat = Some fb ∧ 3%nat = 3%nat
    ∧ heap (accessibility_analysis Ref.router 0 1 2 3 800 delft).2 !! 3%nat = Some fb'
    ∧ length (rows fb') = length (rows fb)
    ∧ let net := with_variable net0 "parks" park_ids in
      ∀ i building, rows fb !! i = Some building →
        ∃ node scored,
          nearest_node Ref.router net (coord_x (geometry building))
            (coord_y (geometry building)) = Some node
          ∧ rows fb' !! i = Some scored
          ∧ label scored = label building ∧ geometry scored = geometry building
          ∧ cell scored "accessibility"
            = if decide (node ∈ node_ids_of net)
              then VNum (aggregate_value Ref.router net "count" "parks" 800 node)
              else VNaN.
Proof.
  apply (score_is_count_at_nearest_node Ref.router 0 1 2 3 800 delft).
  vm_compute. reflexivity.
Defined.

(** ** What the stages change

    Which frames a stage modifies, and what a failed nearest-node lookup
    leaves behind. *)




Lemma build_network_events n e p w :
  ∃ evs, (build_network n e p w).2 = add_events evs w.
Proof.
  unfold build_network, pandana_Network, set_pois.
  run_M; try (by exists []; rewrite add_events_nil); some_events.
Qed.

Section mutation.
Variable R : Router.

Lemma proximity_analysis_events n e p w :
  ∃ evs, (proximity_analysis R n e p w).2 = add_events evs w.
Proof.
  unfold proximity_analysis, bind.
  destruct (build_network_events n e p w) as (evs & Hw).
  destruct (build_network n e p w) as [[net|x] w0]; simpl in *; subst w0; [|by eauto].
  unfold nearest_pois. run_M; rewrite ?add_events_app; eauto.
Qed.



(** C6 (as the code has it). The buildings are snapped in one call: when
    the nearest-node lookup of any one building fails,
    [accessibility_analysis] as a whole fails with a LookupError, right after
    that call, and it leaves the heap as it was: no building is given a
    score. *)
Theorem snap_failure_aborts (n e p b : loc) (d : Z) (w : World) (net0 : Network)
    (fp fb : GeoDataFrame) (park_ids : Series) (building : Row) :
  (build_network n e p w).1 = Ok net0 → heap w !! p = Some fp →
  snap_all R net0 (centroid_x fp) (centroid_y fp) = Ok park_ids →
  heap w !! b = Some fb → building ∈ rows fb →
  nearest_node R (with_variable net0 "parks" park_ids)
    (coord_x (geometry building)) (coord_y (geometry building)) = None →
  ∃ evs, (build_network n e p w).2 = add_events evs w
    ∧ accessibility_analysis R n e p b d w
      = (Err LookupError,
         add_events (evs ++ [EvGetNodeIds; EvSet "parks"; EvAggregate d "count" "parks";
                             EvGetNodeIds]) w).
Proof.
  intros Hnet Hp Hpids Hb Hin Hnone.
  apply list_elem_of_lookup_1 in Hin as [i Hi].
  destruct (build_network_events n e p w) as (evs & Hw).
  exists evs. split; [done|].
  unfold accessibility_analysis, bind at 1.
  destruct (build_network n e p w) as [[net|x] w0]; simpl in *; subst w0; simplify_eq.
  unfold get_node_ids, network_set, aggregate, setitem_at.
  unfold bind, deref, log, lift, ret, raise, store; simpl. rewrite Hp, Hpids. simpl.
  rewrite lookup_insert_eq. simpl. rewrite Hb.
  erewrite (snap_failure R _ (centroid_x fb) (centroid_y fb) i
              (label building, coord_x (geometry building))
              (label building, coord_y (geometry building)));
    [|apply length_centroids| | |done].
  - by rewrite !add_events_app, <- ?app_assoc.
  - unfold centroid_x. by rewrite list_lookup_fmap, Hi.
  - unfold centroid_y. by rewrite list_lookup_fmap, Hi.
Qed.
End mutation.

(** In Delft, the buildings frame has no column before the analysis and the
    accessibility column after it. *)
Example accessibility_analysis_writes_into_buildings :
  columns <$> heap delft !! 3%nat = Some []
  ∧ columns <$> heap (accessibility_analysis Ref.router 0 1 2 3 800 delft).2 !! 3%nat
    = Some ["accessibility"].
Proof. split; vm_compute; reflexivity. Qed.


(** In [delft'], where the first building has no geometry, the analysis
    raises and no building is scored, not even the second one. *)
Example one_building_without_nearest_node :
  (accessibility_analysis Ref.router 0 1 2 3 800 delft').1 = Err LookupError
  ∧ nearest_node Ref.router (with_variable delft_network "parks" [(VNum 0, VNum 1)])
      (VNum 1990) (VNum 0) = Some (VNum 3)
  ∧ heap (accessibility_analysis Ref.router 0 1 2 3 800 delft').2 = heap delft'.
Proof. repeat split; vm_compute; reflexivity. Qed.

(** C6, as stated, fails: in [delft'] the second building snaps to node 3,
    yet it is not scored, because the first building has no nearest node. *)
Lemma snap_failures_are_isolated_fails : ¬ snap_failures_are_isolated.
Proof.
  intros H.
  destruct (H Ref.router 0%nat 1%nat 2%nat 3%nat 800 delft' delft_network
              (frame_of [] [shape (point 10 0)])
              (frame_of [] [shape empty; shape (point 1990 0)])
              [(VNum 0, VNum 1)] 1%nat (mkRow (VNum 1) (point 1990 0) ∅) (VNum 3))
    as (fb' & scored & Hfb' & Hrow & [v Hv]); try (vm_compute; reflexivity).
  vm_compute in Hfb'. injection Hfb' as <-.
  vm_compute in Hrow. injection Hrow as <-.
  vm_compute in Hv. discriminate Hv.
Qed.

(** In [delft'] the first building has no geometry, hence no nearest node. *)
Lemma snap_failure_aborts_witness :
  ∃ evs, (build_network 0 1 2 delft').2 = add_events evs delft'
    ∧ accessibility_analysis Ref.router 0 1 2 3 800 delft'
      = (Err LookupError,
         add_events (evs ++ [EvGetNodeIds; EvSet "parks"; EvAggregate 800 "count" "parks";
                             EvGetNodeIds]) delft').
Proof.
  apply (snap_failure_aborts Ref.router 0 1 2 3 800 delft' delft_network
           (frame_of [] [shape (point 10 0)])
           (frame_of [] [shape empty; shape (point 1990 0)])
           [(VNum 0, VNum 1)] (mkRow (VNum 0) empty ∅)).
  - vm_compute. reflexivity.
  - reflexivity.
  - vm_compute. reflexivity.
  - reflexivity.
  - by apply (list_elem_of_lookup_2 _ 0%nat).
  - vm_compute. reflexivity.
Defined.

(** ** Runs of the single-city pipeline *)

Section runs.
Variable R : Router.

Lemma proximity_analysis_run fn fe fp w n e p :
  heap w !! n = Some fn → heap w !! e = Some fe → heap w !! p = Some fp →
  ∃ evs, proximity_analysis R n e p w = (proximity_of R fn fe fp, add_events evs w).
Proof.
  intros Hn He Hp. destruct (proximity_analysis_local R fn fe fp) as (r & evs & H).
  exists evs. unfold proximity_of.
  rewrite (H (world_of [fn; fe; fp]) 0 1 2)%nat by done.
  by apply H.
Qed.

Lemma accessibility_analysis_run fn fe fp fb d w n e p b :
  heap w !! n = Some fn → heap w !! e = Some fe → heap w !! p = Some fp →
  heap w !! b = Some fb →
  ∃ evs, accessibility_analysis R n e p b d w =
    match accessibility_of R fn fe fp fb d with
    | Ok fb' => (Ok b, add_events evs (set_heap (<[b := fb']> (heap w)) w))
    | Err x => (Err x, add_events evs w)
    end.
Proof.
  intros Hn He Hp Hb.
  destruct (accessibility_analysis_local R fn fe fp fb d) as (r & evs & _ & H).
  exists evs. unfold accessibility_of.
  rewrite (H fb (world_of [fn; fe; fp; fb]) 0 1 2 3)%nat by done.
  rewrite (H fb w n e p b) by done.
  unfold assigned. by destruct r.
Qed.
End runs.

(** Looking up an object of a heap that has grown since it was allocated. *)
Ltac solve_lookup :=
  cbn [heap add_events set_heap];
  repeat first
    [ by apply list_lookup_middle
    | rewrite list_lookup_insert_ne by (rewrite ?length_app; simpl; lia)
    | rewrite lookup_app_l by (rewrite ?length_app; simpl; lia) ].

Ltac run_proximity R fn fe fp :=
  match goal with
  | |- context [proximity_analysis R ?n ?e ?p ?w] =>
      let H := fresh in
      destruct (proximity_analysis_run R fn fe fp w n e p) as (? & H);
      [solve_lookup..|rewrite H; clear H]
  end.

Ltac run_accessibility R fn fe fp fb :=
  match goal with
  | |- context [accessibility_analysis R ?n ?e ?p ?b ?d ?w] =>
      let H := fresh in
      destruct (accessibility_analysis_run R fn fe fp fb d w n e p b) as (? & H);
      [solve_lookup..|rewrite H; clear H]
  end.

Section serial.
Variable R : Router.

(** The run of the serial cells, statement by statement. *)
Lemma serial_cells_run data_folder city vs w :
  run_cells (serial_cells R data_folder city) vs w =
    match load_features data_folder city "parks" w with
    | (Err x, w1) => ((vs, Some x), w1)
    | (Ok parks, w1) =>
    match load_features data_folder city "nodes" w1 with
    | (Err x, w2) => ((bind_parks parks vs, Some x), w2)
    | (Ok nodes, w2) =>
    match load_features data_folder city "edges" w2 with
    | (Err x, w3) => ((bind_nodes nodes (bind_parks parks vs), Some x), w3)
    | (Ok edges, w3) =>
    let vs3 := bind_edges edges (bind_nodes nodes (bind_parks parks vs)) in
    match load_features data_folder city "buildings" w3 with
    | (Err x, w4) => ((vs3, Some x), w4)
    | (Ok buildings, w4) =>
    let vs4 := bind_buildings buildings vs3 in
    match proximity_analysis R nodes edges parks w4 with
    | (Err x, w5) => ((vs4, Some x), w5)
    | (Ok proximity, w5) =>
    match accessibility_analysis R nodes edges parks buildings 800 w5 with
    | (Err x, w6) => ((bind_proximity proximity vs4, Some x), w6)
    | (Ok accessibility, w6) =>
        ((bind_accessibility accessibility (bind_proximity proximity vs4), None), w6)
    end end end end end end.
Proof.
  unfold serial_cells. cbn [run_cells]. unfold read_var, bind, ret.
  destruct (load_features data_folder city "parks" w) as [[parks|?] w1]; [|done].
  destruct (load_features data_folder city "nodes" w1) as [[nodes|?] w2]; [|done].
  destruct (load_features data_folder city "edges" w2) as [[edges|?] w3]; [|done].
  destruct (load_features data_folder city "buildings" w3) as [[bs|?] w4]; [|done].
  cbn [var_parks var_nodes var_edges var_buildings
       bind_parks bind_nodes bind_edges bind_buildings bind_proximity]. unfold ret.
  destruct (proximity_analysis R nodes edges parks w4) as [[proximity|?] w5]; [|done].
  cbn [var_parks var_nodes var_edges var_buildings
       bind_parks bind_nodes bind_edges bind_buildings bind_proximity]. unfold ret.
  by destruct (accessibility_analysis R nodes edges parks bs 800 w5) as [[?|?] ?].
Qed.

(** Closes the case of a run of the serial cells that stops at a statement. *)
Ltac stopped :=
  let Hp := fresh in let Ha := fresh in
  intros Hp Ha;
  cbn [fst snd var_proximity var_accessibility bind_parks bind_nodes bind_edges
       bind_buildings bind_proximity] in *;
  rewrite ?Hp, ?Ha by done; simpl;
  split; [done|]; split; [done|]; split; [done|]; by intros [? ?].

(** What the kernel shows after the serial cells is a function of the data
    folder, whatever the kernel had bound before (each variable is assigned
    before it is read), as long as the kernel had not bound a result that this
    run will not produce. *)
Lemma serial_cells_observed data_folder city vs0 w :
  (fst (serial_outcome R (disk w) data_folder city) = None → var_proximity vs0 = None) →
  (snd (serial_outcome R (disk w) data_folder city) = None → var_accessibility vs0 = None) →
  observe_serial (run_cells (serial_cells R data_folder city) vs0 w)
  = serial_outcome R (disk w) data_folder city
  ∧ (snd (serial_outcome R (disk w) data_folder city) = None →
     var_accessibility (run_cells (serial_cells R data_folder city) vs0 w).1.1 = None)
  ∧ ((run_cells (serial_cells R data_folder city) vs0 w).1.2 = None
     ↔ is_Some (snd (serial_outcome R (disk w) data_folder city))).
Proof.
  rewrite serial_cells_run. unfold serial_outcome, observe_serial.
  rewrite load_features_run. cbn zeta.
  destruct (file_frame (disk w) (layer_path data_folder city "parks")) as [fp|?];
    [|stopped].
  rewrite load_features_run. cbn [disk add_events set_heap]. cbn zeta.
  destruct (file_frame (disk w) (layer_path data_folder city "nodes")) as [fn|?];
    [|stopped].
  rewrite load_features_run. cbn [disk add_events set_heap]. cbn zeta.
  destruct (file_frame (disk w) (layer_path data_folder city "edges")) as [fe|?];
    [|stopped].
  rewrite load_features_run. cbn [disk add_events set_heap]. cbn zeta.
  destruct (file_frame (disk w) (layer_path data_folder city "buildings")) as [fb|?];
    [|stopped].
  run_proximity R fn fe fp.
  destruct (proximity_of R fn fe fp) as [t|?]; [|stopped].
  run_accessibility R fn fe fp fb.
  destruct (accessibility_of R fn fe fp fb 800) as [fb1|?]; [|stopped].
  cbn [fst snd]. intros _ _. cbn [var_proximity var_accessibility bind_accessibility
    bind_proximity heap add_events set_heap].
  split; [|split; [done|split; [by eauto|done]]].
  f_equal. simpl. apply list_lookup_insert_eq. rewrite !length_app. simpl. lia.
Qed.
End serial.

(** ** Evaluating a task graph *)

Lemma cache_get_ne k k' v c : k ≠ k' → cache_get k ((k', v) :: c) = cache_get k c.
Proof. intros Hk. simpl. by rewrite decide_False. Qed.

Lemma cache_get_eq k v c : cache_get k ((k, v) :: c) = Some v.
Proof. simpl. by rewrite decide_True. Qed.

Section evaluation.
Variable R : Router.

Lemma eval_DCall k f args c :
  eval R (DCall k f args) c =
    match cache_get k c with
    | Some v => ret (v, c)
    | None =>
        r <- eval_list R args c ;;
        v <- call R f r.1 ;;
        ret (v, (k, v) :: r.2)
    end.
Proof. reflexivity. Qed.

Lemma eval_list_cons d ds c :
  eval_list R (d :: ds) c =
    (r1 <- eval R d c ;; r2 <- eval_list R ds r1.2 ;; ret (r1.1 :: r2.1, r2.2)).
Proof. reflexivity. Qed.

(** A load task that has not run yet reads its file and is remembered. *)
Lemma eval_load k data_folder city features c w :
  cache_get k c = None →
  eval R (DCall k FLoadFeatures
            [DConst (VPath data_folder); DConst (VStr city); DConst (VStr features)]) c w
  = let p := layer_path data_folder city features in
    match file_frame (disk w) p with
    | Ok df => (Ok (VRef (length (heap w)), (k, VRef (length (heap w))) :: c),
                set_heap (heap w ++ [df]) (add_events [EvRead p] w))
    | Err x => (Err x, add_events [EvRead p] w)
    end.
Proof.
  intros Hk. rewrite eval_DCall, Hk. unfold bind; simpl. unfold bind.
  rewrite load_features_run. simpl. by destruct (file_frame _ _).
Qed.

(** A task that has run is not run again. *)
Lemma eval_cached k f args c v w :
  cache_get k c = Some v → eval R (DCall k f args) c w = (Ok (v, c), w).
Proof. intros Hk. by rewrite eval_DCall, Hk. Qed.

Lemma eval_fresh k f args c :
  cache_get k c = None →
  eval R (DCall k f args) c =
    (r <- eval_list R args c ;; v <- call R f r.1 ;; ret (v, (k, v) :: r.2)).
Proof. intros Hk. by rewrite eval_DCall, Hk. Qed.

Lemma eval_list_nil c w : eval_list R [] c w = (Ok ([], c), w).
Proof. reflexivity. Qed.

Lemma eval_const v c w : eval R (DConst v) c w = (Ok (v, c), w).
Proof. reflexivity. Qed.
End evaluation.

Ltac norm :=
  unfold bind, ret, add_events, set_heap;
  cbn [heap disk writable figures trace fst snd call rbind].

(** A key of partition [i] in a cache that holds keys of this partition
    under other names, on top of a cache with no key of the partition. *)
Ltac solve_cache :=
  repeat (rewrite cache_get_ne by (by intros [=]));
  first [ apply cache_get_eq | done ].

Ltac eval_step :=
  first [ rewrite eval_const
        | rewrite eval_load by solve_cache
        | erewrite eval_cached by solve_cache
        | rewrite eval_fresh by solve_cache
        | rewrite eval_list_cons
        | rewrite eval_list_nil ];
  norm.

Ltac raised :=
  do 2 eexists; (split; [reflexivity|]); cbn [rbind disk writable figures]; done.

Section lazy.
Variable R : Router.

(** The one [dask.compute] statement binds both results, or it raises. *)
Lemma lazy_cells_observed data_folder city w :
  ∀ g, (lazy_cells data_folder city w).1 = Ok g →
  observe_lazy (compute R [g.1; g.2] w) = pipeline_outcome R (disk w) data_folder city
  ∧ (pipeline_outcome R (disk w) data_folder city = None →
     is_ok (compute R [g.1; g.2] w).1 = false).
Proof.
  intros g [= <-]. cbn [fst snd].
  unfold pipeline_outcome, compute. norm.
  repeat eval_step.
  destruct (file_frame (disk w) (layer_path data_folder city "nodes")) as [fn|?];
    [|done].
  repeat eval_step.
  destruct (file_frame (disk w) (layer_path data_folder city "edges")) as [fe|?];
    [|done].
  repeat eval_step.
  destruct (file_frame (disk w) (layer_path data_folder city "parks")) as [fp|?];
    [|done].
  repeat eval_step.
  run_proximity R fn fe fp. norm.
  destruct (proximity_of R fn fe fp) as [t|?]; cycle 1.
  { by repeat case_match. }
  repeat eval_step.
  destruct (file_frame (disk w) (layer_path data_folder city "buildings")) as [fb|?];
    [|done].
  repeat eval_step.
  run_accessibility R fn fe fp fb. norm.
  destruct (accessibility_of R fn fe fp fb 800) as [fb1|?]; [|done].
  repeat eval_step.
  unfold observe_lazy, observed. cbn [fst snd heap].
  rewrite list_lookup_insert_eq; [done|].
  rewrite !length_app. simpl. lia.
Qed.

Lemma lazy_cells_observed_swapped data_folder city w :
  ∀ g, (lazy_cells data_folder city w).1 = Ok g →
  observe_lazy_swapped (compute R [g.2; g.1] w)
  = pipeline_outcome R (disk w) data_folder city
  ∧ (pipeline_outcome R (disk w) data_folder city = None →
     is_ok (compute R [g.2; g.1] w).1 = false).
Proof.
  intros g [= <-]. cbn [fst snd].
  unfold pipeline_outcome, compute. norm.
  repeat eval_step.
  destruct (file_frame (disk w) (layer_path data_folder city "nodes")) as [fn|?];
    [|done].
  repeat eval_step.
  destruct (file_frame (disk w) (layer_path data_folder city "edges")) as [fe|?];
    [|done].
  repeat eval_step.
  destruct (file_frame (disk w) (layer_path data_folder city "parks")) as [fp|?];
    [|done].
  repeat eval_step.
  destruct (file_frame (disk w) (layer_path data_folder city "buildings")) as [fb|?];
    [|done].
  repeat eval_step.
  run_accessibility R fn fe fp fb. norm.
  destruct (accessibility_of R fn fe fp fb 800) as [fb1|?]; cycle 1.
  { by repeat case_match. }
  repeat eval_step.
  run_proximity R fn fe fp. norm.
  destruct (proximity_of R fn fe fp) as [t|?]; [|done].
  repeat eval_step.
  unfold observe_lazy_swapped, observed. cbn [fst snd heap].
  rewrite list_lookup_insert_eq; [done|].
  rewrite !length_app. simpl. lia.
Qed.
End lazy.

(** ** Lazy against serial, and running again *)

Lemma keeps_disk_bind {A B} (m : M A) (k : A → M B) :
  keeps_disk m → (∀ a, keeps_disk (k a)) → keeps_disk (bind m k).
Proof.
  intros Hm Hk w. unfold bind. specialize (Hm w).
  destruct (m w) as [[a|x] w']; simpl in *; [|done]. by rewrite Hk.
Qed.

Lemma keeps_disk_ret {A} (a : A) : keeps_disk (ret a).
Proof. done. Qed.

Lemma keeps_disk_load data_folder city features :
  keeps_disk (load_features data_folder city features).
Proof. intros w. rewrite load_features_run. simpl. by destruct (file_frame _ _). Qed.

Section reruns.
Variable R : Router.

Lemma keeps_disk_proximity n e p : keeps_disk (proximity_analysis R n e p).
Proof. intros w. by destruct (proximity_analysis_events R n e p w) as (evs & ->). Qed.

Lemma keeps_disk_accessibility n e p b d : keeps_disk (accessibility_analysis R n e p b d).
Proof.
  intros w. unfold accessibility_analysis, bind at 1.
  destruct (build_network_events n e p w) as (evs & Hw).
  destruct (build_network n e p w) as [[net|x] w0]; simpl in *; subst w0; [|done].
  unfold get_node_ids, network_set, aggregate, setitem_at.
  run_M; done.
Qed.

Lemma keeps_disk_serial_cells data_folder city vs w :
  disk (run_cells (serial_cells R data_folder city) vs w).2 = disk w.
Proof.
  rewrite serial_cells_run.
  pose proof (keeps_disk_load data_folder city "parks" w) as H1.
  destruct (load_features data_folder city "parks" w) as [[parks|?] w1];
    simpl in H1; [|done].
  pose proof (keeps_disk_load data_folder city "nodes" w1) as H2.
  destruct (load_features data_folder city "nodes" w1) as [[nodes|?] w2];
    simpl in H2; [|simpl; congruence].
  pose proof (keeps_disk_load data_folder city "edges" w2) as H3.
  destruct (load_features data_folder city "edges" w2) as [[edges|?] w3];
    simpl in H3; [|simpl; congruence].
  pose proof (keeps_disk_load data_folder city "buildings" w3) as H4.
  destruct (load_features data_folder city "buildings" w3) as [[bs|?] w4];
    simpl in H4; [|simpl; congruence].
  cbn zeta.
  pose proof (keeps_disk_proximity nodes edges parks w4) as H5.
  destruct (proximity_analysis R nodes edges parks w4) as [[proximity|?] w5];
    simpl in H5; [|simpl; congruence].
  pose proof (keeps_disk_accessibility nodes edges parks bs 800 w5) as H6.
  destruct (accessibility_analysis R nodes edges parks bs 800 w5) as [[?|?] w6];
    simpl in *; congruence.
Qed.

Lemma pipeline_outcome_both (d : gmap Path File) (data_folder : Path) (city : string) :
  pipeline_outcome R d data_folder city = both (serial_outcome R d data_folder city).
Proof. unfold pipeline_outcome, serial_outcome, both. by repeat case_match. Qed.

Lemma serial_outcome_snd (d : gmap Path File) (data_folder : Path) (city : string) :
  is_Some (snd (serial_outcome R d data_folder city))
  ↔ is_Some (both (serial_outcome R d data_folder city)).
Proof.
  unfold serial_outcome, both.
  repeat case_match; simplify_eq/=; split; intros [? ?]; by eauto.
Qed.

(** C7 (as the code has it).  Building the task graph runs nothing: it
    returns the two tasks and leaves the world as it is.  When the serial
    cells run to their end, computing the graph binds the same proximity
    table and the same scored buildings as they do, whichever of the two
    targets is evaluated first, and whether the graph is computed in a fresh
    kernel or after the serial cells have run.  When the serial cells stop at
    a statement that raises, the one [dask.compute] statement raises as well
    and binds nothing, also when the serial cells had already bound the
    proximity table. *)
Theorem lazy_run_matches_completed_serial_run (data_folder : Path) (city : string)
    (w : World) :
  ∃ proximity_p accessibility_p,
    lazy_cells data_folder city w = (Ok (proximity_p, accessibility_p), w)
    ∧ let serial := run_cells (serial_cells R data_folder city) no_vars w in
      observe_lazy (compute R [proximity_p; accessibility_p] w)
      = both (observe_serial serial)
      ∧ observe_lazy_swapped (compute R [accessibility_p; proximity_p] w)
        = both (observe_serial serial)
      ∧ observe_lazy (compute R [proximity_p; accessibility_p] serial.2)
        = both (observe_serial serial)
      ∧ (serial.1.2 = None ↔ is_Some (both (observe_serial serial)))
      ∧ (serial.1.2 ≠ None →
         is_ok (compute R [proximity_p; accessibility_p] w).1 = false
         ∧ is_ok (compute R [accessibility_p; proximity_p] w).1 = false).
Proof.
  destruct (lazy_cells data_folder city w) as [r w'] eqn:Hg.
  assert (∃ g, r = Ok g ∧ w' = w ∧ ∀ w0, (lazy_cells data_folder city w0).1 = Ok g)
    as ([proximity_p accessibility_p] & -> & -> & Hany).
  { revert Hg. unfold lazy_cells, delayed, bind, ret. intros [= <- <-]. eauto. }
  exists proximity_p, accessibility_p. split; [done|]. cbn zeta.
  destruct (serial_cells_observed R data_folder city no_vars w) as (Hobs & _ & Hend);
    [done..|].
  destruct (lazy_cells_observed R data_folder city w _ (Hany w)) as [H1 H1'].
  destruct (lazy_cells_observed_swapped R data_folder city w _ (Hany w)) as [H2 H2'].
  destruct (lazy_cells_observed R data_folder city
              (run_cells (serial_cells R data_folder city) no_vars w).2 _ (Hany _))
    as [H3 _].
  rewrite keeps_disk_serial_cells in H3.
  rewrite pipeline_outcome_both in H1, H1', H2, H2', H3.
  rewrite Hobs, Hend, serial_outcome_snd.
  do 4 (split; [done|]).
  intros Hnot.
  assert (both (serial_outcome R (disk w) data_folder city) = None) as Hnone.
  { clear H1 H1' H2 H2' H3.
    destruct (both (serial_outcome R (disk w) data_folder city)) eqn:Hb; [|done].
    destruct Hnot. by eauto. }
  auto.
Qed.

Lemma accessibility_of_index fn fe fp fb d fb1 :
  accessibility_of R fn fe fp fb d = Ok fb1 →
  ∃ s, s_index s = index fb ∧ fb1 = set_column fb "accessibility" (s_values s).
Proof.
  unfold accessibility_of.
  destruct (accessibility_analysis_local R fn fe fp fb d) as (r & evs & Hidx & H).
  rewrite (H fb (world_of [fn; fe; fp; fb]) 0 1 2 3)%nat by done.
  unfold assigned. destruct r as [s|x]; simpl; [|done].
  intros [= <-]. exists s. split; [by apply Hidx|done].
Qed.

(** Scoring a frame that has been scored changes nothing. *)
Lemma accessibility_of_again fn fe fp fb d fb1 :
  accessibility_of R fn fe fp fb d = Ok fb1 →
  accessibility_of R fn fe fp fb1 d = Ok fb1.
Proof.
  unfold accessibility_of.
  destruct (accessibility_analysis_local R fn fe fp fb d) as (r & evs & Hidx & H).
  rewrite (H fb (world_of [fn; fe; fp; fb]) 0 1 2 3)%nat by done.
  unfold assigned. destruct r as [s|x]; simpl; [|done].
  intros [= <-].
  assert (length (s_values s) = length (rows fb)) as Hlen.
  { by rewrite length_s_values, <- length_s_index, (Hidx s), length_index. }
  rewrite (H (set_column fb "accessibility" (s_values s))
             (world_of [fn; fe; fp; set_column fb "accessibility" (s_values s)])
             0 1 2 3)%nat; try done.
  - simpl. by rewrite set_column_twice.
  - by apply set_column_centroid_x.
  - by apply set_column_centroid_y.
Qed.

(** C8. Re-running the serial cells on an unchanged data folder shows the
    same proximity table and the same scored buildings, in a restarted kernel
    and in the kernel that still holds the variables of the first run.  Each
    analysis returns the same result whenever it is given equal layers, and running
    [accessibility_analysis] again on the very objects it has already scored
    returns the same buildings frame. *)
Theorem rerun_gives_identical_tables (data_folder : Path) (city : string)
    (w w1 w2 : World) (n e p b n' e' p' b' : loc) (d : Z)
    (fn fe fp fb : GeoDataFrame) :
  heap w1 !! n = Some fn → heap w1 !! e = Some fe → heap w1 !! p = Some fp →
  heap w1 !! b = Some fb →
  heap w2 !! n' = Some fn → heap w2 !! e' = Some fe → heap w2 !! p' = Some fp →
  heap w2 !! b' = Some fb →
  b ≠ n → b ≠ e → b ≠ p →
  (let first := run_cells (serial_cells R data_folder city) no_vars w in
   observe_serial (run_cells (serial_cells R data_folder city) no_vars first.2)
   = observe_serial first
   ∧ observe_serial (run_cells (serial_cells R data_folder city) first.1.1 first.2)
     = observe_serial first)
  ∧ (proximity_analysis R n' e' p' w2).1 = (proximity_analysis R n e p w1).1
  ∧ scored (accessibility_analysis R n' e' p' b' d w2)
    = scored (accessibility_analysis R n e p b d w1)
  ∧ scored (accessibility_analysis R n e p b d (accessibility_analysis R n e p b d w1).2)
    = scored (accessibility_analysis R n e p b d w1).
Proof.
  intros Hn He Hp Hb Hn' He' Hp' Hb' Hbn Hbe Hbp.
  split.
  { cbn zeta.
    destruct (serial_cells_observed R data_folder city no_vars w) as (Hobs & Hacc & _);
      [done..|].
    rewrite Hobs. split.
    - destruct (serial_cells_observed R data_folder city no_vars
                  (run_cells (serial_cells R data_folder city) no_vars w).2)
        as (-> & _ & _); [done..|].
      by rewrite keeps_disk_serial_cells.
    - destruct (serial_cells_observed R data_folder city
                  (run_cells (serial_cells R data_folder city) no_vars w).1.1
                  (run_cells (serial_cells R data_folder city) no_vars w).2)
        as (-> & _ & _).
      + rewrite keeps_disk_serial_cells, <- Hobs. done.
      + by rewrite keeps_disk_serial_cells.
      + by rewrite keeps_disk_serial_cells. }
  split.
  { destruct (proximity_analysis_run R fn fe fp w1 n e p) as (? & ->); try done.
    by destruct (proximity_analysis_run R fn fe fp w2 n' e' p') as (? & ->). }
  assert (∀ w0 n e p b, heap w0 !! n = Some fn → heap w0 !! e = Some fe →
            heap w0 !! p = Some fp → heap w0 !! b = Some fb →
            scored (accessibility_analysis R n e p b d w0)
            = match accessibility_of R fn fe fp fb d with
              | Ok fb1 => Some fb1 | Err _ => None end) as Hscored.
  { clear. intros w0 n e p b Hn He Hp Hb.
    destruct (accessibility_analysis_run R fn fe fp fb d w0 n e p b) as (? & ->);
      try done.
    destruct (accessibility_of R fn fe fp fb d); [|done].
    unfold scored. simpl. apply list_lookup_insert_eq. by eapply lookup_lt_Some. }
  split. { by rewrite !Hscored. }
  rewrite (Hscored w1 n e p b) by done.
  destruct (accessibility_analysis_run R fn fe fp fb d w1 n e p b) as (evs & ->);
    try done.
  destruct (accessibility_of R fn fe fp fb d) as [fb1|x] eqn:Hfb1.
  - cbn [fst snd].
    destruct (accessibility_analysis_run R fn fe fp fb1 d
                (add_events evs (set_heap (<[b:=fb1]> (heap w1)) w1)) n e p b)
      as (evs' & ->); simpl.
    1-3: by rewrite list_lookup_insert_ne.
    { apply list_lookup_insert_eq. by eapply lookup_lt_Some. }
    rewrite (accessibility_of_again fn fe fp fb d fb1 Hfb1).
    unfold scored. simpl. apply list_lookup_insert_eq.
    rewrite length_insert. by eapply lookup_lt_Some.
  - cbn [fst snd].
    destruct (accessibility_analysis_run R fn fe fp fb d (add_events evs w1) n e p b)
      as (evs' & ->); try done.
    by rewrite Hfb1.
Qed.
End reruns.

(** Delft, from the data folder and from its loaded layers. *)
Lemma rerun_gives_identical_tables_witness :
  (let first := run_cells (serial_cells Ref.router data_folder "Delft") no_vars world in
   observe_serial (run_cells (serial_cells Ref.router data_folder "Delft") no_vars first.2)
   = observe_serial first
   ∧ observe_serial (run_cells (serial_cells Ref.router data_folder "Delft")
                       first.1.1 first.2)
     = observe_serial first)
  ∧ (proximity_analysis Ref.router 0 1 2 delft).1 = (proximity_analysis Ref.router 0 1 2 delft).1
  ∧ scored (accessibility_analysis Ref.router 0 1 2 3 800 delft)
    = scored (accessibility_analysis Ref.router 0 1 2 3 800 delft)
  ∧ scored (accessibility_analysis Ref.router 0 1 2 3 800
              (accessibility_analysis Ref.router 0 1 2 3 800 delft).2)
    = scored (accessibility_analysis Ref.router 0 1 2 3 800 delft).
Proof.
  apply (rerun_gives_identical_tables Ref.router data_folder "Delft" world delft delft
           0 1 2 3 0 1 2 3 800
           (frame_of ["osmid"; "x"; "y"] [node 1 0 0; node 2 500 0; node 3 2000 0])
           (frame_of ["u"; "v"; "length"] [edge 1 2 500; edge 2 3 1500])
           (frame_of [] [shape (point 10 0)])
           (frame_of [] [shape (point 490 5); shape (point 1990 0)]));
    first [reflexivity | lia].
Defined.

(** In the data folder of [world'] the first building of Delft has no
    geometry: the serial cells bind the proximity table and stop in the
    accessibility cell, the lazy cells bind nothing. *)
Example serial_cells_keep_the_proximity_table :
  fst (observe_serial (run_cells (serial_cells Ref.router data_folder "Delft")
                         no_vars world'))
  = Some [(VNum 1, [0; 800; 800]); (VNum 2, [500; 800; 800]); (VNum 3, [800; 800; 800])]
  ∧ (run_cells (serial_cells Ref.router data_folder "Delft") no_vars world').1.2
    = Some LookupError
  ∧ (∀ proximity_p accessibility_p,
       (lazy_cells data_folder "Delft" world').1 = Ok (proximity_p, accessibility_p) →
       (compute Ref.router [proximity_p; accessibility_p] world').1 = Err LookupError).
Proof.
  split; [vm_compute; reflexivity|]. split; [vm_compute; reflexivity|].
  intros proximity_p accessibility_p [= <- <-]. vm_compute. reflexivity.
Qed.

(** C7, as stated, fails: on that data folder the serial run shows the
    proximity table and the lazy run shows nothing. *)
Lemma lazy_matches_serial_on_every_input_fails : ¬ lazy_matches_serial_on_every_input.
Proof.
  intros H.
  destruct (lazy_cells data_folder "Delft" world') as [[[proximity_p accessibility_p]|x] w'] eqn:Hg;
    [|by vm_compute in Hg].
  specialize (H Ref.router data_folder "Delft" world' proximity_p accessibility_p).
  rewrite Hg in H. specialize (H eq_refl).
  injection Hg as <- <- _.
  vm_compute in H. discriminate H.
Qed.

(** ** The batch over all cities *)

Lemma batch_bags_tasks data_folder fig_folder cities :
  batch_bags data_folder cities fig_folder = imap (city_tasks data_folder fig_folder) cities.
Proof.
  unfold batch_bags, db_map, from_sequence. cbn [npartitions fmap list_fmap].
  repeat first [rewrite length_fmap | rewrite length_seq].
  apply list_eq. intros i. rewrite list_lookup_fmap, list_lookup_imap.
  destruct (cities !! i) as [city|] eqn:Hi; cycle 1.
  { rewrite lookup_seq_ge; [done|]. by apply lookup_ge_None. }
  assert (i < length cities)%nat as Hlt by by eapply lookup_lt_Some.
  unfold city_tasks.
  repeat (first [ rewrite list_lookup_fmap | rewrite (lookup_seq_lt 0 (length cities) i Hlt)
                | rewrite Hi ]; simpl).
  done.
Qed.

Lemma plot_run city p b fig_folder fp fb w :
  heap w !! p = Some fp → heap w !! b = Some fb →
  plot city p b fig_folder w =
    match getitem fb "accessibility" with
    | Ok acc =>
        let fig := {| fig_parks := geometry <$> rows fp;
                      fig_buildings := zip (geometry <$> rows fb) (s_values acc) |} in
        let w' := add_events [EvSaveFig (figure_path fig_folder city)] w in
        if writable w (figure_path fig_folder city)
        then (Ok (), set_figures (<[figure_path fig_folder city := fig]> (figures w)) w')
        else (Err IOError, w')
    | Err x => (Err x, w)
    end.
Proof.
  intros Hp Hb. unfold plot, savefig, figure_path, path_join.
  unfold bind, deref, lift, log, raise. rewrite Hp, Hb.
  destruct (getitem fb "accessibility"); [|done]. simpl.
  by destruct (writable w _).
Qed.

Section cities.
Variable R : Router.

Lemma eval_city_tasks data_folder fig_folder i city c w :
  (∀ name, cache_get (name, i) c = None) →
  ∃ r w',
    eval R (city_tasks data_folder fig_folder i city) c w = (r, w')
    ∧ disk w' = disk w ∧ writable w' = writable w
    ∧ match city_figure R (disk w) (writable w) data_folder fig_folder city with
      | Ok fig =>
          figures w' = <[figure_path fig_folder city := fig]> (figures w)
          ∧ ∃ c', r = Ok (VNone, c')
              ∧ ∀ name j, j ≠ i → cache_get (name, j) c' = cache_get (name, j) c
      | Err x => r = Err x ∧ figures w' = figures w
      end.
Proof.
  intros Hfresh. unfold city_tasks, city_figure.
  repeat eval_step.
  destruct (file_frame (disk w) (layer_path data_folder city "parks")) as [fp|?];
    [|raised].
  repeat eval_step.
  destruct (file_frame (disk w) (layer_path data_folder city "nodes")) as [fn|?];
    [|raised].
  repeat eval_step.
  destruct (file_frame (disk w) (layer_path data_folder city "edges")) as [fe|?];
    [|raised].
  repeat eval_step.
  destruct (file_frame (disk w) (layer_path data_folder city "buildings")) as [fb|?];
    [|raised].
  repeat eval_step.
  cbn [rbind]. run_accessibility R fn fe fp fb. norm.
  destruct (accessibility_of R fn fe fp fb 800) as [fb1|?]; [|raised].
  repeat eval_step.
  erewrite (plot_run city _ _ fig_folder fp fb1); cycle 1.
  { solve_lookup. }
  { cbn [heap]. apply list_lookup_insert_eq. rewrite !length_app. simpl. lia. }
  cbn [rbind writable figures].
  destruct (getitem fb1 "accessibility") as [acc|?]; [|raised].
  cbn [rbind]. destruct (writable w (figure_path fig_folder city)); [|raised].
  do 2 eexists. split; [done|]. do 2 (split; [done|]). split; [done|].
  eexists. split; [done|].
  intros name j Hj. by repeat (rewrite cache_get_ne by (intros [=]; done)).
Qed.
End cities.

Section batch.
Variable R : Router.


End batch.

(** The data folder holds Delft and Gouda; Gouda's edge file does not parse,
    and the batch raises its FormatError. *)
Example batch_with_a_corrupt_city :
  glob_names data_folder (disk world) = ["Delft"; "Gouda"]
  ∧ disk world !! layer_path data_folder "Gouda" "edges" = Some Corrupt
  ∧ (batch_cells Ref.router data_folder fig_folder world).1 = Err FormatError.
Proof. repeat split; vm_compute; reflexivity. Qed.


(** * Further properties of the notebook functions *)

(** ** The columns [build_network] needs *)

Ltac in_list := repeat first [apply list_elem_of_here | apply list_elem_of_further].

Lemma set_index_inv df keys r :
  set_index df keys = r →
  match r with
  | Ok df' =>
      Forall (λ k, k ∈ columns df) keys
      ∧ df' = {| columns := columns df;
                 rows := (λ r, {| label := tuple_of ((cell r) <$> keys);
                                  geometry := geometry r; attrs := attrs r |}) <$> rows df |}
  | Err x => ∃ k, x = KeyError k ∧ k ∈ keys ∧ k ∉ columns df
  end.
Proof.
  intros <-. unfold set_index.
  destruct (list_find _ keys) as [[i k]|] eqn:Hf.
  - apply list_find_Some in Hf as (Hi & Hnot & _).
    exists k. split; [done|]. split; [|done]. by eapply list_elem_of_lookup_2.
  - split; [|done]. apply list_find_None in Hf.
    eapply Forall_impl; [exact Hf|]. simpl. intros k Hk.
    by destruct (decide (k ∈ columns df)).
Qed.

Lemma getitem_inv df col r :
  getitem df col = r →
  match r with
  | Ok s => col ∈ columns df ∧ s = (λ r, (label r, cell r col)) <$> rows df
  | Err x => x = KeyError col ∧ col ∉ columns df
  end.
Proof. intros <-. unfold getitem. by case_decide. Qed.

(** The two ways [build_network] can end, on frames that exist. *)
Lemma build_network_outcome n e p w fn fe fp :
  heap w !! n = Some fn → heap w !! e = Some fe → heap w !! p = Some fp →
  (∃ net, build_network n e p w
          = (Ok net, add_events [EvNetwork; EvSetPois "parks" 1000 25] w)
          ∧ node_layer fn ∧ edge_layer fe)
  ∨ ∃ col, (col ∈ ["osmid"; "x"; "y"] ∧ col ∉ columns fn
            ∨ col ∈ ["u"; "v"; "length"] ∧ col ∉ columns fe)
      ∧ build_network n e p w = (Err (KeyError col), w).
Proof.
  intros Hn He Hp.
  destruct (build_network n e p w) as [r w'] eqn:Hrun. revert Hrun.
  unfold build_network, bind, deref, lift. rewrite Hn.
  pose proof (set_index_inv fn ["osmid"] _ eq_refl) as H1.
  destruct (set_index fn ["osmid"]) as [fn'|x].
  2: { destruct H1 as (k & -> & Hk & Hno). intros [= <- <-].
       right. exists k. split; [|done]. left.
       split; [|done]. apply list_elem_of_singleton in Hk as ->. in_list. }
  destruct H1 as [Hid ->]. apply (proj1 (Forall_singleton _ _)) in Hid. rewrite He.
  pose proof (set_index_inv fe ["u"; "v"] _ eq_refl) as H2.
  destruct (set_index fe ["u"; "v"]) as [fe'|x].
  2: { destruct H2 as (k & -> & Hk & Hno). intros [= <- <-].
       right. exists k. split; [|done]. right.
       split; [|done]. apply elem_of_cons in Hk as [-> | ->%list_elem_of_singleton]; in_list. }
  destruct H2 as [Huv ->]. apply Forall_cons in Huv as [Hu Huv].
  apply (proj1 (Forall_singleton _ _)) in Huv as Hv.
  unfold getitem at 1. cbn [columns]. case_decide as Hx.
  2: { intros [= <- <-]. right. exists "x". split; [|done]. left.
       split; [in_list|done]. }
  unfold getitem at 1. cbn [columns]. case_decide as Hy.
  2: { intros [= <- <-]. right. exists "y". split; [|done]. left.
       split; [in_list|done]. }
  rewrite !getitem_ok by done. unfold getitems. cbn [rmapM rbind].
  unfold getitem at 1. cbn [columns]. case_decide as Hl.
  2: { simpl. intros [= <- <-]. right. exists "length". split; [|done]. right.
       split; [in_list|done]. }
  cbn [rbind]. unfold pandana_Network, set_pois, bind, log, raise, ret. simpl.
  assert (node_layer fn ∧ edge_layer fe) as Hlayers by by repeat split.
  rewrite Hp. intros [= <- <-]. left. eexists. by rewrite add_events_app.
Qed.

Lemma missing_column_not_layer fn fe col :
  col ∈ ["osmid"; "x"; "y"] ∧ col ∉ columns fn
  ∨ col ∈ ["u"; "v"; "length"] ∧ col ∉ columns fe →
  ¬ (node_layer fn ∧ edge_layer fe).
Proof.
  intros Hcol [(Hid & Hx & Hy) (Hu & Hv & Hl)].
  destruct Hcol as [[Hin Hno]|[Hin Hno]];
    repeat (apply elem_of_cons in Hin as [-> | Hin]; [done|]);
    by apply elem_of_nil in Hin.
Qed.

Section columns.
Variable R : Router.

(** X1.  [build_network] needs the columns osmid, x and y of the node layer
    and u, v and length of the edge layer.  When they are all there it
    returns the graph, after the graph constructor and the registration of
    the parks.  When one is missing it raises a KeyError that names a missing
    column before any engine call, and so do both analyses. *)
Theorem build_network_needs_columns (n e p : loc) (w : World) (fn fe fp : GeoDataFrame) :
  heap w !! n = Some fn → heap w !! e = Some fe → heap w !! p = Some fp →
  (node_layer fn ∧ edge_layer fe →
     ∃ net, build_network n e p w
            = (Ok net, add_events [EvNetwork; EvSetPois "parks" 1000 25] w))
  ∧ (¬ (node_layer fn ∧ edge_layer fe) →
     ∃ col, (col ∈ ["osmid"; "x"; "y"] ∧ col ∉ columns fn
             ∨ col ∈ ["u"; "v"; "length"] ∧ col ∉ columns fe)
       ∧ build_network n e p w = (Err (KeyError col), w)
       ∧ proximity_analysis R n e p w = (Err (KeyError col), w)
       ∧ ∀ b d, accessibility_analysis R n e p b d w = (Err (KeyError col), w)).
Proof.
  intros Hn He Hp.
  destruct (build_network_outcome n e p w fn fe fp Hn He Hp)
    as [(net & Hnet & Hlayers) | (col & Hcol & Hnet)].
  - split; [by eauto|]. intros Hnot. by destruct Hnot.
  - split.
    + intros Hlayers. by destruct (missing_column_not_layer fn fe col Hcol).
    + intros _. exists col. do 2 (split; [done|]).
      unfold proximity_analysis, accessibility_analysis, bind. by rewrite Hnet.
Qed.
End columns.

(** Delft without the y column of its node layer. *)
Lemma build_network_needs_columns_witness :
  let w := Cases.delft_no_y in
  let fn := frame_of ["osmid"; "x"] [node 1 0 0; node 2 500 0; node 3 2000 0] in
  let fe := frame_of ["u"; "v"; "length"] [edge 1 2 500; edge 2 3 1500] in
  (node_layer fn ∧ edge_layer fe →
     ∃ net, build_network 0 1 2 w
            = (Ok net, add_events [EvNetwork; EvSetPois "parks" 1000 25] w))
  ∧ (¬ (node_layer fn ∧ edge_layer fe) →
     ∃ col, (col ∈ ["osmid"; "x"; "y"] ∧ col ∉ columns fn
             ∨ col ∈ ["u"; "v"; "length"] ∧ col ∉ columns fe)
       ∧ build_network 0 1 2 w = (Err (KeyError col), w)
       ∧ proximity_analysis Ref.router 0 1 2 w = (Err (KeyError col), w)
       ∧ ∀ b d, accessibility_analysis Ref.router 0 1 2 b d w = (Err (KeyError col), w)).
Proof.
  apply (build_network_needs_columns Ref.router 0 1 2 Cases.delft_no_y _ _
           (frame_of [] [shape (point 10 0)])); reflexivity.
Defined.

(** ** The rows of the proximity table *)

Lemma build_network_node_ids n e p w fn net :
  heap w !! n = Some fn → (build_network n e p w).1 = Ok net →
  node_ids_of net = (λ r, cell r "osmid") <$> rows fn.
Proof.
  intros Hn. unfold build_network, pandana_Network, set_pois. run_M.
  all: intros; simplify_eq/=.
  select (set_index _ ["osmid"] = _) (fun H => apply set_index_inv in H as [_ ->]).
  select (getitem _ "x" = _) (fun H => apply getitem_inv in H as [_ ->]).
  unfold node_ids_of, s_index. simpl. by rewrite <- !list_fmap_compose.
Qed.

Section table_rows.
Variable R : Router.

(** X3.  The proximity table has one row per row of the node layer, in the
    layer's order, and each row is labelled with the osmid of its node (not
    with the row label the file was read with). *)
Theorem proximity_rows_follow_node_layer (n e p : loc) (w : World)
    (fn : GeoDataFrame) (tbl : Table) :
  heap w !! n = Some fn → (proximity_analysis R n e p w).1 = Ok tbl →
  tbl.*1 = (λ r, cell r "osmid") <$> rows fn
  ∧ length tbl = length (rows fn).
Proof.
  intros Hn. rewrite proximity_analysis_result.
  destruct (build_network n e p w).1 as [net|x] eqn:Hnet; simpl; [|done].
  intros [= <-].
  apply (build_network_node_ids n e p w fn net Hn) in Hnet.
  unfold proximity_table. rewrite <- Hnet. split.
  - rewrite <- list_fmap_compose. apply list_fmap_id.
  - by rewrite length_fmap, Hnet, length_fmap.
Qed.
End table_rows.

(** The three nodes of Delft. *)
Lemma proximity_rows_follow_node_layer_witness :
  [(VNum 1, [0; 800; 800]); (VNum 2, [500; 800; 800]); (VNum 3, [800; 800; 800])].*1
  = (λ r, cell r "osmid")
      <$> rows (frame_of ["osmid"; "x"; "y"] [node 1 0 0; node 2 500 0; node 3 2000 0])
  ∧ length [(VNum 1, [0; 800; 800]); (VNum 2, [500; 800; 800]); (VNum 3, [800; 800; 800])]
    = length (rows (frame_of ["osmid"; "x"; "y"] [node 1 0 0; node 2 500 0; node 3 2000 0])).
Proof.
  apply (proximity_rows_follow_node_layer Ref.router 0 1 2 delft).
  - reflexivity.
  - vm_compute. reflexivity.
Defined.

(** ** The engine calls of the accessibility analysis *)

Lemma build_network_ok_world n e p w net w0 :
  build_network n e p w = (Ok net, w0) →
  w0 = add_events [EvNetwork; EvSetPois "parks" 1000 25] w.
Proof.
  unfold build_network, pandana_Network, set_pois. run_M.
  all: intros; simplify_eq/=. by rewrite add_events_app.
Qed.

Section calls.
Variable R : Router.

Lemma proximity_analysis_ok_world n e p w t w' :
  proximity_analysis R n e p w = (Ok t, w') → w' = add_events proximity_events w.
Proof.
  unfold proximity_analysis, bind at 1.
  destruct (build_network n e p w) as [[net|x] w0] eqn:Hnet; [|done].
  apply build_network_ok_world in Hnet as ->.
  unfold nearest_pois. run_M. all: intros; simplify_eq/=.
  by rewrite !add_events_app.
Qed.

Lemma accessibility_analysis_ok_world n e p b d w l w' :
  accessibility_analysis R n e p b d w = (Ok l, w') →
  trace w' = trace w ++ accessibility_events d
  ∧ disk w' = disk w ∧ figures w' = figures w ∧ writable w' = writable w.
Proof.
  unfold accessibility_analysis, bind at 1.
  destruct (build_network n e p w) as [[net|x] w0] eqn:Hnet; [|done].
  apply build_network_ok_world in Hnet as ->.
  unfold get_node_ids, network_set, aggregate, setitem_at. run_M.
  all: intros; simplify_eq/=. by rewrite <- !app_assoc.
Qed.


End calls.


(** ** What the scores depend on, and plotting them *)

Lemma set_column_has_column df col vals : col ∈ columns (set_column df col vals).
Proof.
  unfold set_column; simpl. case_decide; [done|].
  apply elem_of_app. right. by apply list_elem_of_singleton.
Qed.

Lemma set_column_values df col vals :
  length vals = length (rows df) →
  (λ r, cell r col) <$> rows (set_column df col vals) = vals.
Proof.
  intros Hlen. apply list_eq; intros i.
  rewrite list_lookup_fmap, set_column_rows by done.
  destruct (rows df !! i) as [r|] eqn:Hr; simpl.
  - destruct (vals !! i) eqn:Hv; simpl.
    + unfold cell; simpl. by rewrite lookup_insert_eq.
    + apply lookup_lt_Some in Hr. apply lookup_ge_None in Hv. lia.
  - symmetry. apply lookup_ge_None. apply lookup_ge_None in Hr. lia.
Qed.

Lemma zip_geometry_scores (rs : list Row) (col : string) :
  zip (geometry <$> rs) (s_values ((λ r, (label r, cell r col)) <$> rs))
  = (λ r, (geometry r, cell r col)) <$> rs.
Proof.
  unfold s_values. rewrite <- list_fmap_compose.
  rewrite <- (zip_fst_snd ((λ r, (geometry r, cell r col)) <$> rs)).
  by rewrite <- !list_fmap_compose.
Qed.

Section plotting.
Variable R : Router.

(** X6.  The scores [accessibility_analysis] assigns depend on the node,
    edge and park layers and on the index and the centroids of the buildings
    only: two buildings frames with the same index and the same centroids
    receive the same accessibility column, whatever other columns they carry
    and wherever the frames live. *)
Theorem scores_depend_on_centroids_only (n e p b n' e' p' b' : loc) (d : Z)
    (w1 w2 : World) (fn fe fp fb1 fb2 : GeoDataFrame) :
  heap w1 !! n = Some fn → heap w1 !! e = Some fe → heap w1 !! p = Some fp →
  heap w1 !! b = Some fb1 →
  heap w2 !! n' = Some fn → heap w2 !! e' = Some fe → heap w2 !! p' = Some fp →
  heap w2 !! b' = Some fb2 →
  centroid_x fb1 = centroid_x fb2 → centroid_y fb1 = centroid_y fb2 →
  (λ fb, (λ r, cell r "accessibility") <$> rows fb)
    <$> scored (accessibility_analysis R n e p b d w1)
  = (λ fb, (λ r, cell r "accessibility") <$> rows fb)
    <$> scored (accessibility_analysis R n' e' p' b' d w2).
Proof.
  intros Hn He Hp Hb Hn' He' Hp' Hb' Hx Hy.
  destruct (accessibility_analysis_local R fn fe fp fb1 d) as (r & evs & Hidx & H).
  rewrite (H fb1 w1 n e p b) by done.
  rewrite (H fb2 w2 n' e' p' b') by done.
  unfold assigned, scored. destruct r as [s|x]; cbn [fst snd heap add_events set_heap]; [|done].
  assert (length (s_values s) = length (rows fb1)) as Hlen1.
  { by rewrite length_s_values, <- length_s_index, (Hidx s), length_index. }
  assert (length (rows fb1) = length (rows fb2)) as Hrows.
  { apply (f_equal length) in Hx. unfold centroid_x in Hx. by rewrite !length_fmap in Hx. }
  rewrite !list_lookup_insert_eq by by eapply lookup_lt_Some.
  cbn [fmap option_fmap option_map].
  rewrite !set_column_values; [done|lia|lia].
Qed.

(** X7.  The frame a successful [accessibility_analysis] returns has the
    accessibility column, with one score per building on the buildings' own
    index; the column is appended when the frame did not have it and
    replaced in place when it did.  So [plot] finds the column it colours
    by: on that frame it can fail only when the figure cannot be written. *)
Theorem scored_buildings_have_the_plotted_column (n e p b : loc) (d : Z) (w w' : World)
    (l : loc) (city : string) (fig_folder : Path) :
  accessibility_analysis R n e p b d w = (Ok l, w') →
  ∃ fb fb' scores,
    heap w !! b = Some fb ∧ heap w' !! l = Some fb'
    ∧ getitem fb' "accessibility" = Ok scores
    ∧ s_index scores = index fb ∧ length scores = length (rows fb)
    ∧ columns fb' = (if decide ("accessibility" ∈ columns fb) then columns fb
                     else columns fb ++ ["accessibility"])
    ∧ ∀ x, (plot city p l fig_folder w').1 = Err x → x = IOError.
Proof.
  intros Hrun.
  pose proof Hrun as Hok.
  apply accessibility_analysis_ok in Hok
    as (net0 & fp & pids & fb & bids & Hnet & Hp & Hb & Hpids & Hbids & -> & Hheap).
  simpl in Hbids.
  set (net := with_variable net0 "parks" pids) in *.
  set (vals := s_values (series_map bids (to_dict (aggregate_table R net "count" "parks" d)))) in *.
  assert (length vals = length (rows fb)) as Hlen.
  { unfold vals. rewrite length_s_values. unfold series_map. rewrite length_fmap.
    rewrite <- length_s_index. erewrite snap_all_index; [|apply length_centroids|done].
    by rewrite index_centroid_x, length_index. }
  assert (heap w' !! b = Some (set_column fb "accessibility" vals)) as Hb'.
  { rewrite Hheap. apply list_lookup_insert_eq. by eapply lookup_lt_Some. }
  assert (∃ fp', heap w' !! p = Some fp') as [fp' Hp'].
  { apply lookup_lt_is_Some. rewrite Hheap, length_insert. by eapply lookup_lt_Some. }
  exists fb, (set_column fb "accessibility" vals). eexists.
  split; [done|]. split; [done|].
  split. { apply getitem_ok, set_column_has_column. }
  split. { unfold s_index. rewrite <- list_fmap_compose. by apply set_column_index. }
  split. { rewrite length_fmap. by apply set_column_length. }
  split; [done|].
  intros x. rewrite (plot_run city p b fig_folder fp' _ w' Hp' Hb').
  rewrite getitem_ok by apply set_column_has_column. cbn zeta.
  destruct (writable w' _); simpl; [done|]. by intros [= <-].
Qed.
End plotting.

(** Delft's buildings, bare and with a height column. *)
Lemma scores_depend_on_centroids_only_witness :
  (λ fb, (λ r, cell r "accessibility") <$> rows fb)
    <$> scored (accessibility_analysis Ref.router 0 1 2 3 800 delft)
  = (λ fb, (λ r, cell r "accessibility") <$> rows fb)
    <$> scored (accessibility_analysis Ref.router 0 1 2 3 800 Cases.delft_heights).
Proof.
  apply (scores_depend_on_centroids_only Ref.router 0 1 2 3 0 1 2 3 800
           delft Cases.delft_heights
           (frame_of ["osmid"; "x"; "y"] [node 1 0 0; node 2 500 0; node 3 2000 0])
           (frame_of ["u"; "v"; "length"] [edge 1 2 500; edge 2 3 1500])
           (frame_of [] [shape (point 10 0)])
           (frame_of [] [shape (point 490 5); shape (point 1990 0)])
           (frame_of ["height"] [Cases.building 490 5 12; Cases.building 1990 0 7]));
    reflexivity.
Defined.

(** The scored buildings of Delft. *)
Lemma scored_buildings_have_the_plotted_column_witness :
  let w' := (accessibility_analysis Ref.router 0 1 2 3 800 delft).2 in
  ∃ fb fb' scores,
    heap delft !! 3%nat = Some fb ∧ heap w' !! 3%nat = Some fb'
    ∧ getitem fb' "accessibility" = Ok scores
    ∧ s_index scores = index fb ∧ length scores = length (rows fb)
    ∧ columns fb' = (if decide ("accessibility" ∈ columns fb) then columns fb
                     else columns fb ++ ["accessibility"])
    ∧ ∀ x, (plot "Delft" 2 3 fig_folder w').1 = Err x → x = IOError.
Proof.
  apply (scored_buildings_have_the_plotted_column Ref.router 0 1 2 3 800 delft).
  vm_compute. reflexivity.
Defined.

(** X8.  [plot] writes at most one file, the figure of its city at
    [<fig_folder>/<city>.png]: it leaves every other figure, the data folder
    and the frames as they are.  When it returns, the buildings had the
    accessibility column and the figure holds the park geometries and, for
    each building in order, its geometry and its score.  When it fails,
    nothing has been written: with an IOError if the path is not writable,
    with a KeyError, before any attempt to write, if the buildings have no
    accessibility column. *)
Theorem plot_writes_only_the_city_figure (city : string) (p b : loc) (fig_folder : Path)
    (w : World) (fp fb : GeoDataFrame) :
  heap w !! p = Some fp → heap w !! b = Some fb →
  let fig_path := fig_folder ++ [city +:+ ".png"] in
  let run := plot city p b fig_folder w in
  heap run.2 = heap w ∧ disk run.2 = disk w
  ∧ (∀ q, q ≠ fig_path → figures run.2 !! q = figures w !! q)
  ∧ match run.1 with
    | Ok _ =>
        "accessibility" ∈ columns fb ∧ writable w fig_path = true
        ∧ trace run.2 = trace w ++ [EvSaveFig fig_path]
        ∧ figures run.2 !! fig_path
          = Some {| fig_parks := geometry <$> rows fp;
                    fig_buildings :=
                      (λ r, (geometry r, cell r "accessibility")) <$> rows fb |}
    | Err x =>
        figures run.2 = figures w
        ∧ if decide ("accessibility" ∈ columns fb)
          then x = IOError ∧ writable w fig_path = false
               ∧ trace run.2 = trace w ++ [EvSaveFig fig_path]
          else x = KeyError "accessibility" ∧ run.2 = w
    end.
Proof.
  intros Hp Hb fig_path run. subst run. rewrite (plot_run city p b fig_folder fp fb) by done.
  unfold figure_path. fold fig_path. unfold getitem.
  destruct (decide ("accessibility" ∈ columns fb)) as [Hcol|Hcol]; cbn zeta.
  - destruct (writable w fig_path) eqn:Hwr; simpl.
    + do 2 (split; [done|]). split; [by intros q Hq; rewrite lookup_insert_ne|].
      do 3 (split; [done|]). rewrite lookup_insert_eq. do 2 f_equal.
      apply zip_geometry_scores.
    + done.
  - done.
Qed.

(** Delft's buildings before they are scored: [plot] raises the KeyError. *)
Lemma plot_writes_only_the_city_figure_witness :
  let fb := frame_of [] [shape (point 490 5); shape (point 1990 0)] in
  let fig_path := fig_folder ++ ["Delft" +:+ ".png"] in
  let run := plot "Delft" 2 3 fig_folder delft in
  heap run.2 = heap delft ∧ disk run.2 = disk delft
  ∧ (∀ q, q ≠ fig_path → figures run.2 !! q = figures delft !! q)
  ∧ match run.1 with
    | Ok _ =>
        "accessibility" ∈ columns fb ∧ writable delft fig_path = true
        ∧ trace run.2 = trace delft ++ [EvSaveFig fig_path]
        ∧ figures run.2 !! fig_path
          = Some {| fig_parks := geometry <$> rows (frame_of [] [shape (point 10 0)]);
                    fig_buildings :=
                      (λ r, (geometry r, cell r "accessibility")) <$> rows fb |}
    | Err x =>
        figures run.2 = figures delft
        ∧ if decide ("accessibility" ∈ columns fb)
          then x = IOError ∧ writable delft fig_path = false
               ∧ trace run.2 = trace delft ++ [EvSaveFig fig_path]
          else x = KeyError "accessibility" ∧ run.2 = delft
    end.
Proof.
  apply (plot_writes_only_the_city_figure "Delft" 2 3 fig_folder delft); reflexivity.
Defined.

(** ** The external calls of the single-city runs *)

Section single_city.
Variable R : Router.

(** A run of the serial cells that reaches its end. *)
Lemma serial_cells_ok data_folder city vs0 w vs w' :
  run_cells (serial_cells R data_folder city) vs0 w = ((vs, None), w') →
  trace w' = trace w ++ serial_events data_folder city
  ∧ length (heap w') = (length (heap w) + 4)%nat
  ∧ var_accessibility vs = Some (length (heap w) + 3)%nat
  ∧ var_buildings vs = Some (length (heap w) + 3)%nat
  ∧ is_Some (var_proximity vs).
Proof.
  rewrite serial_cells_run.
  rewrite load_features_run. cbn zeta.
  destruct (file_frame (disk w) (layer_path data_folder city "parks")) as [fp|?]; [|done].
  rewrite load_features_run. cbn [disk add_events set_heap]. cbn zeta.
  destruct (file_frame (disk w) (layer_path data_folder city "nodes")) as [fn|?]; [|done].
  rewrite load_features_run. cbn [disk add_events set_heap]. cbn zeta.
  destruct (file_frame (disk w) (layer_path data_folder city "edges")) as [fe|?]; [|done].
  rewrite load_features_run. cbn [disk add_events set_heap]. cbn zeta.
  destruct (file_frame (disk w) (layer_path data_folder city "buildings")) as [fb|?]; [|done].
  match goal with |- context [proximity_analysis R ?n ?e ?p ?w0] =>
    destruct (proximity_analysis R n e p w0) as [[t|?] w1] eqn:Hp1; [|done];
    pose proof (proximity_analysis_ok_world R _ _ _ _ _ _ Hp1) as ->
  end.
  match goal with |- context [accessibility_analysis R ?n ?e ?p ?b ?d ?w0] =>
    destruct (accessibility_analysis_run R fn fe fp fb d w0 n e p b) as (evs2 & Hacc);
      [solve_lookup..|];
    destruct (accessibility_analysis R n e p b d w0) as [[l|?] w2] eqn:Ha1; [|done];
    pose proof (accessibility_analysis_ok_world R _ _ _ _ _ _ _ _ Ha1) as (Htr & _)
  end.
  destruct (accessibility_of R fn fe fp fb 800) as [fb1|?] eqn:Hfb1; [|done].
  injection Hacc as -> ->.
  intros [= <- <-].
  split. { rewrite Htr. cbn [trace add_events set_heap]. unfold serial_events.
           by rewrite <- !app_assoc. }
  split. { cbn [heap add_events set_heap]. rewrite length_insert, !length_app. simpl. lia. }
  cbn [var_accessibility var_buildings var_proximity bind_accessibility bind_proximity
       bind_buildings].
  rewrite !length_app. simpl.
  split; [f_equal; lia|]. split; [f_equal; lia|]. by eauto.
Qed.

(** X9.  A run of the serial cells that reaches its end has read the four
    layer files of the city once each, in the order parks, nodes, edges,
    buildings, and then made the engine calls of the proximity analysis
    followed by those of the accessibility analysis with distance 800: the
    graph is built twice, once by each analysis.  The four layers are the
    only new frames, and the variable [accessibility] holds the very object
    that the variable [buildings] holds, the one loaded last. *)
Theorem serial_run_external_calls (data_folder : Path) (city : string)
    (vs0 vs : Vars) (w w' : World) :
  run_cells (serial_cells R data_folder city) vs0 w = ((vs, None), w') →
  trace w' = trace w
    ++ [EvRead (data_folder ++ [city; "parks_" +:+ city +:+ ".shp"]);
        EvRead (data_folder ++ [city; "nodes_" +:+ city +:+ ".shp"]);
        EvRead (data_folder ++ [city; "edges_" +:+ city +:+ ".shp"]);
        EvRead (data_folder ++ [city; "buildings_" +:+ city +:+ ".shp"]);
        EvNetwork; EvSetPois "parks" 1000 25; EvNearestPois 800 "parks" 3;
        EvNetwork; EvSetPois "parks" 1000 25; EvGetNodeIds; EvSet "parks";
        EvAggregate 800 "count" "parks"; EvGetNodeIds]
  ∧ length (heap w') = (length (heap w) + 4)%nat
  ∧ var_accessibility vs = Some (length (heap w) + 3)%nat
  ∧ var_buildings vs = Some (length (heap w) + 3)%nat
  ∧ is_Some (var_proximity vs).
Proof. intros H. by apply serial_cells_ok in H. Qed.

(** The layers in the order in which the serial cells load them. *)
Lemma load_order_split (before after : list string) (features : string) :
  ["parks"; "nodes"; "edges"; "buildings"] = before ++ features :: after →
  (before = [] ∧ features = "parks")
  ∨ (before = ["parks"] ∧ features = "nodes")
  ∨ (before = ["parks"; "nodes"] ∧ features = "edges")
  ∨ (before = ["parks"; "nodes"; "edges"] ∧ features = "buildings").
Proof.
  destruct before as [|b1 [|b2 [|b3 [|b4 [|b5 before]]]]]; intros H; simplify_eq/=; auto.
Qed.

(** X10.  The serial cells load the layers in the order parks, nodes, edges,
    buildings.  When the layers before one of them can be read and that one
    cannot, the run stops at it with the reader's NotFound or FormatError for
    it: it has read exactly the files of the layers before it and its own, in
    that order, it has loaded exactly the layers before it, and it has run no
    analysis, so that the variables [proximity] and [accessibility] are as
    they were. *)
Theorem serial_run_load_failure (data_folder : Path) (city features : string)
    (before after : list string) (vs0 : Vars) (w : World) (x : Exc) :
  ["parks"; "nodes"; "edges"; "buildings"] = before ++ features :: after →
  Forall (λ f, is_ok (file_frame (disk w) (layer_path data_folder city f))) before →
  file_frame (disk w) (layer_path data_folder city features) = Err x →
  ∃ vs w',
    run_cells (serial_cells R data_folder city) vs0 w = ((vs, Some x), w')
    ∧ (x = NotFound ∨ x = FormatError)
    ∧ trace w' = trace w
        ++ (EvRead <$> (layer_path data_folder city <$> before ++ [features]))
    ∧ length (heap w') = (length (heap w) + length before)%nat
    ∧ var_proximity vs = var_proximity vs0
    ∧ var_accessibility vs = var_accessibility vs0.
Proof.
  intros Horder Hbefore Hx.
  assert (x = NotFound ∨ x = FormatError) as Hexc.
  { revert Hx. unfold file_frame. destruct (disk w !! _) as [[]|]; intros [= <-]; auto. }
  assert (∀ f, f ∈ before →
            ∃ df, file_frame (disk w) (layer_path data_folder city f) = Ok df) as Hok.
  { intros f Hf. rewrite Forall_forall in Hbefore. specialize (Hbefore f Hf).
    destruct (file_frame _ _); [by eauto|done]. }
  rewrite serial_cells_run.
  apply load_order_split in Horder as [[-> ->] | [[-> ->] | [[-> ->] | [-> ->]]]].
  - rewrite load_features_run. cbn zeta. rewrite Hx.
    do 2 eexists. split; [done|]. split; [done|]. simpl. by rewrite add_events_nil || done.
  - destruct (Hok "parks") as [fp Hfp]; [in_list|].
    rewrite load_features_run. cbn zeta. rewrite Hfp.
    rewrite load_features_run. cbn [disk add_events set_heap]. cbn zeta. rewrite Hx.
    do 2 eexists. split; [done|]. split; [done|].
    cbn [trace heap add_events set_heap]. rewrite <- ?app_assoc, ?length_app. done.
  - destruct (Hok "parks") as [fp Hfp]; [in_list|].
    destruct (Hok "nodes") as [fn Hfn]; [in_list|].
    rewrite load_features_run. cbn zeta. rewrite Hfp.
    rewrite load_features_run. cbn [disk add_events set_heap]. cbn zeta. rewrite Hfn.
    rewrite load_features_run. cbn [disk add_events set_heap]. cbn zeta. rewrite Hx.
    do 2 eexists. split; [done|]. split; [done|].
    cbn [trace heap add_events set_heap]. rewrite <- ?app_assoc, ?length_app.
    split; [done|]. split; [simpl; lia|done].
  - destruct (Hok "parks") as [fp Hfp]; [in_list|].
    destruct (Hok "nodes") as [fn Hfn]; [in_list|].
    destruct (Hok "edges") as [fe Hfe]; [in_list|].
    rewrite load_features_run. cbn zeta. rewrite Hfp.
    rewrite load_features_run. cbn [disk add_events set_heap]. cbn zeta. rewrite Hfn.
    rewrite load_features_run. cbn [disk add_events set_heap]. cbn zeta. rewrite Hfe.
    rewrite load_features_run. cbn [disk add_events set_heap]. cbn zeta. rewrite Hx.
    do 2 eexists. split; [done|]. split; [done|].
    cbn [trace heap add_events set_heap]. rewrite <- ?app_assoc, ?length_app.
    split; [done|]. split; [simpl; lia|done].
Qed.

(** A successful evaluation of the task graph of the lazy cells. *)
Lemma lazy_cells_ok data_folder city w vs w' :
  ∀ g, (lazy_cells data_folder city w).1 = Ok g →
  compute R [g.1; g.2] w = (Ok vs, w') →
  trace w' = trace w ++ lazy_events data_folder city
  ∧ ∃ fp fn fe fb t,
      file_frame (disk w) (layer_path data_folder city "parks") = Ok fp
      ∧ file_frame (disk w) (layer_path data_folder city "nodes") = Ok fn
      ∧ file_frame (disk w) (layer_path data_folder city "edges") = Ok fe
      ∧ file_frame (disk w) (layer_path data_folder city "buildings") = Ok fb
      ∧ proximity_of R fn fe fp = Ok t
      ∧ is_ok (accessibility_of R fn fe fp fb 800).
Proof.
  intros g [= <-]. cbn [fst snd].
  unfold compute. norm.
  repeat eval_step.
  destruct (file_frame (disk w) (layer_path data_folder city "nodes")) as [fn|?]; [|done].
  repeat eval_step.
  destruct (file_frame (disk w) (layer_path data_folder city "edges")) as [fe|?]; [|done].
  repeat eval_step.
  destruct (file_frame (disk w) (layer_path data_folder city "parks")) as [fp|?]; [|done].
  repeat eval_step.
  match goal with |- context [proximity_analysis R ?n ?e ?p ?w0] =>
    destruct (proximity_analysis_run R fn fe fp w0 n e p) as (evs1 & Hprox);
      [solve_lookup..|];
    destruct (proximity_analysis R n e p w0) as [[t|?] w1] eqn:Hp1; [|done];
    pose proof (proximity_analysis_ok_world R _ _ _ _ _ _ Hp1) as ->
  end.
  injection Hprox as Hprox _. norm.
  repeat eval_step.
  destruct (file_frame (disk w) (layer_path data_folder city "buildings")) as [fb|?]; [|done].
  repeat eval_step.
  match goal with |- context [accessibility_analysis R ?n ?e ?p ?b ?d ?w0] =>
    destruct (accessibility_analysis_run R fn fe fp fb d w0 n e p b) as (evs2 & Hacc);
      [solve_lookup..|];
    destruct (accessibility_analysis R n e p b d w0) as [[l|?] w2] eqn:Ha1; [|done];
    pose proof (accessibility_analysis_ok_world R _ _ _ _ _ _ _ _ Ha1) as (Htr & _)
  end.
  destruct (accessibility_of R fn fe fp fb 800) as [fb1|?] eqn:Hfb1; [|done].
  injection Hacc as -> ->. norm.
  repeat eval_step.
  intros [= <- <-].
  unfold add_events, set_heap in Htr. cbn [trace] in Htr. apply app_inv_head in Htr as ->.
  split. { cbn [trace]. unfold lazy_events. by rewrite <- !app_assoc. }
  exists fp, fn, fe, fb, t. by rewrite Hfb1.
Qed.

Lemma lazy_events_serial_events data_folder city :
  lazy_events data_folder city ≡ₚ serial_events data_folder city.
Proof.
  unfold lazy_events, serial_events.
  set (X := proximity_events). set (Y := accessibility_events 800).
  clearbody X Y. simpl. rewrite <- Permutation_middle.
  set (rest := _ :: (X ++ Y)).
  etrans; [|apply Permutation_swap]. apply perm_skip.
  apply Permutation_swap.
Qed.

(** X11.  When the evaluation of the task graph of the lazy cells
    succeeds, the serial cells reach their end, and the two runs make the same external
    calls up to their order: thirteen calls, the four layer files read once
    each although three of them feed both analyses, and the graph built
    twice, once inside each analysis task. *)
Theorem lazy_run_makes_the_serial_calls (data_folder : Path) (city : string)
    (w w' : World) (proximity_p accessibility_p : Delayed) (results : list Value) :
  (lazy_cells data_folder city w).1 = Ok (proximity_p, accessibility_p) →
  compute R [proximity_p; accessibility_p] w = (Ok results, w') →
  ∃ lazy_calls serial_calls vs w'',
    trace w' = trace w ++ lazy_calls
    ∧ run_cells (serial_cells R data_folder city) no_vars w = ((vs, None), w'')
    ∧ trace w'' = trace w ++ serial_calls
    ∧ lazy_calls ≡ₚ serial_calls
    ∧ length lazy_calls = 13%nat.
Proof.
  intros Hg Hrun.
  destruct (lazy_cells_ok data_folder city w results w' _ Hg Hrun)
    as (Htr & fp & fn & fe & fb & t & Hfp & Hfn & Hfe & Hfb & Ht & Ha).
  destruct (serial_cells_observed R data_folder city no_vars w) as (_ & _ & Hend);
    [done..|].
  unfold serial_outcome in Hend. rewrite Hfp, Hfn, Hfe, Hfb, Ht in Hend.
  destruct (accessibility_of R fn fe fp fb 800) as [fb1|?]; [|done].
  destruct (run_cells (serial_cells R data_folder city) no_vars w) as [[vs err] w'']
    eqn:Hs.
  assert (err = None) as -> by (apply Hend; simpl; eauto).
  pose proof Hs as Hs'. apply serial_cells_ok in Hs' as (Htr' & _).
  exists (lazy_events data_folder city), (serial_events data_folder city), vs, w''.
  split; [done|]. split; [done|]. split; [done|].
  split; [apply lazy_events_serial_events|done].
Qed.

End single_city.

(** Delft, from the data folder. *)
Lemma serial_run_external_calls_witness :
  let run := run_cells (serial_cells Ref.router data_folder "Delft") no_vars world in
  trace run.2 = trace world
    ++ [EvRead (data_folder ++ ["Delft"; "parks_" +:+ "Delft" +:+ ".shp"]);
        EvRead (data_folder ++ ["Delft"; "nodes_" +:+ "Delft" +:+ ".shp"]);
        EvRead (data_folder ++ ["Delft"; "edges_" +:+ "Delft" +:+ ".shp"]);
        EvRead (data_folder ++ ["Delft"; "buildings_" +:+ "Delft" +:+ ".shp"]);
        EvNetwork; EvSetPois "parks" 1000 25; EvNearestPois 800 "parks" 3;
        EvNetwork; EvSetPois "parks" 1000 25; EvGetNodeIds; EvSet "parks";
        EvAggregate 800 "count" "parks"; EvGetNodeIds]
  ∧ length (heap run.2) = (length (heap world) + 4)%nat
  ∧ var_accessibility run.1.1 = Some (length (heap world) + 3)%nat
  ∧ var_buildings run.1.1 = Some (length (heap world) + 3)%nat
  ∧ is_Some (var_proximity run.1.1).
Proof.
  apply (serial_run_external_calls Ref.router data_folder "Delft" no_vars _ world).
  vm_compute. reflexivity.
Defined.

(** Gouda, whose edge file does not parse: the parks and the nodes have
    been loaded when the run stops. *)
Lemma serial_run_load_failure_witness :
  ∃ vs w',
    run_cells (serial_cells Ref.router data_folder "Gouda") no_vars world
    = ((vs, Some FormatError), w')
    ∧ (FormatError = NotFound ∨ FormatError = FormatError)
    ∧ trace w' = trace world
        ++ (EvRead <$> (layer_path data_folder "Gouda" <$> ["parks"; "nodes"] ++ ["edges"]))
    ∧ length (heap w') = (length (heap world) + length ["parks"; "nodes"])%nat
    ∧ var_proximity vs = var_proximity no_vars
    ∧ var_accessibility vs = var_accessibility no_vars.
Proof.
  apply (serial_run_load_failure Ref.router data_folder "Gouda" "edges"
           ["parks"; "nodes"] ["buildings"] no_vars world FormatError).
  - reflexivity.
  - repeat constructor.
  - vm_compute. reflexivity.
Defined.

(** The task graph of Delft. *)
Lemma lazy_run_makes_the_serial_calls_witness :
  let layer name features :=
    DCall (name, 0%nat) FLoadFeatures
      [DConst (VPath data_folder); DConst (VStr "Delft"); DConst (VStr features)] in
  let proximity_p :=
    DCall ("proximity_p", 0%nat) FProximityAnalysis
      [layer "nodes_p" "nodes"; layer "edges_p" "edges"; layer "parks_p" "parks"] in
  let accessibility_p :=
    DCall ("accessibility_p", 0%nat) FAccessibilityAnalysis
      [layer "nodes_p" "nodes"; layer "edges_p" "edges"; layer "parks_p" "parks";
       layer "buildings_p" "buildings"] in
  ∃ lazy_calls serial_calls vs w'',
    trace (compute Ref.router [proximity_p; accessibility_p] world).2
    = trace world ++ lazy_calls
    ∧ run_cells (serial_cells Ref.router data_folder "Delft") no_vars world
      = ((vs, None), w'')
    ∧ trace w'' = trace world ++ serial_calls
    ∧ lazy_calls ≡ₚ serial_calls
    ∧ length lazy_calls = 13%nat.
Proof.
  eapply (lazy_run_makes_the_serial_calls Ref.router data_folder "Delft" world).
  - reflexivity.
  - vm_compute. reflexivity.
Defined.

(** ** Paths *)

Lemma string_length_app (s t : string) :
  String.length (s +:+ t) = (String.length s + String.length t)%nat.
Proof. induction s as [|a s IH]; simpl; [done|]. by rewrite IH. Qed.

Lemma string_app_inj_len (s1 s2 t1 t2 : string) :
  String.length t1 = String.length t2 → s1 +:+ t1 = s2 +:+ t2 → s1 = s2 ∧ t1 = t2.
Proof.
  intros Hlen. revert s2. induction s1 as [|a s1 IH]; intros [|b s2] H.
  - done.
  - apply (f_equal String.length) in H. rewrite !string_length_app in H.
    simpl in H. lia.
  - apply (f_equal String.length) in H. rewrite !string_length_app in H.
    simpl in H. lia.
  - injection H as -> H. apply IH in H as [-> ->]. done.
Qed.

Lemma figure_path_inj fig_folder city1 city2 :
  figure_path fig_folder city1 = figure_path fig_folder city2 → city1 = city2.
Proof.
  unfold figure_path. intros H. apply app_inv_head in H.
  injection H as H. by apply string_app_inj_len in H as [-> _].
Qed.

(** ** The cities of the data folder *)

Lemma glob_names_elem (data_folder : Path) (d : gmap Path File) (city : string) :
  city ∈ glob_names data_folder d ↔ ∃ rest, is_Some (d !! (data_folder ++ city :: rest)).
Proof.
  unfold glob_names. rewrite elem_of_remove_dups, list_elem_of_omap. split.
  - intros (p & Hp & Hf). apply elem_of_elements, elem_of_dom in Hp.
    case_decide as Hpre; [|done]. destruct Hpre as [k ->].
    rewrite drop_app_length in Hf. apply head_Some in Hf as [rest ->]. eauto.
  - intros [rest Hsome]. exists (data_folder ++ city :: rest). split.
    + by apply elem_of_elements, elem_of_dom.
    + rewrite decide_True by by apply prefix_app_r. by rewrite drop_app_length.
Qed.

(** ** More on the batch *)

Section batches.
Variable R : Router.

Lemma batch_cells_run data_folder fig_folder w :
  ∃ r w',
    eval_list R (imap (λ i, city_tasks data_folder fig_folder (0 + i))
                   (glob_names data_folder (disk w))) [] w = (r, w')
    ∧ batch_cells R data_folder fig_folder w
      = (match r with Ok a => Ok a.1 | Err e => Err e end, w').
Proof.
  destruct (eval_list R _ [] w) as [r w'] eqn:Hrun. exists r, w'. split; [done|].
  rewrite (imap_ext _ (city_tasks data_folder fig_folder)) in Hrun by done.
  unfold batch_cells, bind at 1, ret. cbn [fst snd].
  unfold compute, bind. rewrite batch_bags_tasks, Hrun. by destruct r.
Qed.

(** X14.  On a data folder with no entry, neither a file nor a directory,
    be it empty, the batch has no task: it returns the empty result list and
    does nothing, no file is read and no figure is written. *)
Theorem empty_data_folder_batch (data_folder fig_folder : Path) (w : World) :
  (∀ city rest, disk w !! (data_folder ++ city :: rest) = None) →
  batch_cells R data_folder fig_folder w = (Ok [], w).
Proof.
  intros Hempty.
  assert (glob_names data_folder (disk w) = []) as Hnone.
  { apply elem_of_nil_inv. intros city [rest Hin]%glob_names_elem.
    rewrite Hempty in Hin. by destruct Hin. }
  unfold batch_cells, bind at 1, ret. cbn [fst snd]. by rewrite Hnone.
Qed.

(** A successful evaluation of the tasks of the cities: what it has
    written. *)
Lemma eval_batch_ok data_folder fig_folder cities : ∀ k c w vc w',
  (∀ name j, (k ≤ j)%nat → cache_get (name, j) c = None) →
  eval_list R (imap (λ i, city_tasks data_folder fig_folder (k + i)) cities) c w
    = (Ok vc, w') →
  disk w' = disk w ∧ writable w' = writable w
  ∧ (∀ city, city ∈ cities →
       ∃ fig, city_figure R (disk w) (writable w) data_folder fig_folder city = Ok fig
              ∧ figures w' !! figure_path fig_folder city = Some fig)
  ∧ (∀ q, (∀ city, city ∈ cities → q ≠ figure_path fig_folder city) →
       figures w' !! q = figures w !! q).
Proof.
  induction cities as [|city cities IH]; intros k c w vc w' Hfresh.
  { intros [= <- <-]. do 2 (split; [done|]). split; [|done].
    intros city' Hin. by apply elem_of_nil in Hin. }
  rewrite imap_cons, eval_list_cons. unfold bind at 1.
  destruct (eval_city_tasks R data_folder fig_folder (k + 0) city c w)
    as (r1 & w1 & -> & Hdisk1 & Hwr1 & Hcity).
  { intros name. apply Hfresh. lia. }
  destruct (city_figure R (disk w) (writable w) data_folder fig_folder city)
    as [fig|x] eqn:Hfig; cycle 1.
  { by destruct Hcity as [-> _]. }
  destruct Hcity as (Hfigs & c1 & -> & Hc1). cbn [fst snd].
  rewrite (imap_ext _ (λ i, city_tasks data_folder fig_folder (S k + i))); cycle 1.
  { intros i x _. simpl. f_equal. lia. }
  unfold bind at 1.
  destruct (eval_list R _ c1 w1) as [[vc2|x] w2] eqn:Hrest; [|done].
  intros [= <- <-].
  destruct (IH (S k) c1 w1 vc2 w2) as (Hdisk2 & Hwr2 & Hall & Hother); [|done|].
  { intros name j Hj. rewrite Hc1 by lia. apply Hfresh. lia. }
  rewrite Hdisk1, Hwr1 in Hall.
  split; [congruence|]. split; [congruence|]. split.
  - intros city' [->|Hin]%elem_of_cons; [|by apply Hall].
    exists fig. split; [done|].
    destruct (decide (city ∈ cities)) as [Hin|Hnotin].
    + destruct (Hall city Hin) as (fig' & Hfig' & Hlook). congruence.
    + rewrite Hother, Hfigs; [apply lookup_insert_eq|].
      intros city' Hin Heq. apply figure_path_inj in Heq as ->. done.
  - intros q Hq. rewrite Hother, Hfigs.
    + apply lookup_insert_ne. intros Heq. by apply (Hq city); [left|].
    + intros city' Hin. apply Hq. by right.
Qed.

(** X15.  A plain file directly in the data folder is taken for a city,
    and so is a directory with nothing in it: the name is in the list of
    cities, its layers cannot be loaded (NotFound, there is nothing below
    it), and so the batch raises instead of returning results. *)
Theorem stray_file_fails_the_batch (data_folder fig_folder : Path) (w : World)
    (name : string) (f : File) :
  disk w !! (data_folder ++ [name]) = Some f →
  (∀ rest, rest ≠ [] → disk w !! (data_folder ++ name :: rest) = None) →
  name ∈ glob_names data_folder (disk w)
  ∧ (load_features data_folder name "parks" w).1 = Err NotFound
  ∧ ∃ x w', batch_cells R data_folder fig_folder w = (Err x, w').
Proof.
  intros Hfile Hbelow.
  assert (name ∈ glob_names data_folder (disk w)) as Hin.
  { apply glob_names_elem. exists []. by rewrite Hfile. }
  assert (file_frame (disk w) (layer_path data_folder name "parks") = Err NotFound) as Hparks.
  { unfold file_frame, layer_path. by rewrite Hbelow. }
  split; [done|]. split. { rewrite load_features_run. cbn zeta. by rewrite Hparks. }
  destruct (batch_cells_run data_folder fig_folder w) as (r & w' & Heval & ->).
  destruct r as [[vs c]|x]; [|by eauto].
  apply eval_batch_ok in Heval as (_ & _ & Hall & _); [|done].
  destruct (Hall name Hin) as (fig & Hfig & _).
  unfold city_figure in Hfig. by rewrite Hparks in Hfig.
Qed.

(** X16.  After a successful batch every city of the data folder has its
    figure at [<fig_folder>/<city>.png], drawn from that city's own layers: the
    geometries of its parks and, for each of its buildings in order, the
    geometry and the score that [accessibility_analysis] computes from the
    city's four layers with distance 800.  No other figure has been touched
    and the data folder is as before. *)
Theorem batch_writes_each_city_its_own_figure (data_folder fig_folder : Path)
    (w w' : World) (results : list Value) :
  batch_cells R data_folder fig_folder w = (Ok results, w') →
  disk w' = disk w
  ∧ (∀ city, city ∈ glob_names data_folder (disk w) →
       ∃ fp fn fe fb fb1,
         file_frame (disk w) (layer_path data_folder city "parks") = Ok fp
         ∧ file_frame (disk w) (layer_path data_folder city "nodes") = Ok fn
         ∧ file_frame (disk w) (layer_path data_folder city "edges") = Ok fe
         ∧ file_frame (disk w) (layer_path data_folder city "buildings") = Ok fb
         ∧ accessibility_of R fn fe fp fb 800 = Ok fb1
         ∧ geometry <$> rows fb1 = geometry <$> rows fb
         ∧ figures w' !! (fig_folder ++ [city +:+ ".png"])
           = Some {| fig_parks := geometry <$> rows fp;
                     fig_buildings :=
                       (λ r, (geometry r, cell r "accessibility")) <$> rows fb1 |})
  ∧ (∀ q, (∀ city, city ∈ glob_names data_folder (disk w) →
             q ≠ fig_folder ++ [city +:+ ".png"]) →
       figures w' !! q = figures w !! q).
Proof.
  intros Hrun.
  destruct (batch_cells_run data_folder fig_folder w) as (r & w0 & Heval & Hbatch).
  rewrite Hbatch in Hrun. destruct r as [[vs c]|x]; [|done].
  injection Hrun as <- <-.
  apply eval_batch_ok in Heval as (Hdisk & _ & Hall & Hother); [|done].
  split; [done|]. split; [|done].
  intros city Hin. destruct (Hall city Hin) as (fig & Hfig & Hlook).
  unfold city_figure in Hfig.
  destruct (file_frame (disk w) (layer_path data_folder city "parks")) as [fp|];
    [|done]. cbn [rbind] in Hfig.
  destruct (file_frame (disk w) (layer_path data_folder city "nodes")) as [fn|];
    [|done]. cbn [rbind] in Hfig.
  destruct (file_frame (disk w) (layer_path data_folder city "edges")) as [fe|];
    [|done]. cbn [rbind] in Hfig.
  destruct (file_frame (disk w) (layer_path data_folder city "buildings")) as [fb|];
    [|done]. cbn [rbind] in Hfig.
  destruct (accessibility_of R fn fe fp fb 800) as [fb1|] eqn:Hfb1; [|done].
  cbn [rbind] in Hfig.
  destruct (getitem fb1 "accessibility") as [acc|] eqn:Hacc; [|done].
  cbn [rbind] in Hfig. destruct (writable w _); [|done].
  injection Hfig as <-.
  exists fp, fn, fe, fb, fb1. do 5 (split; [done|]).
  apply getitem_inv in Hacc as [_ ->]. rewrite zip_geometry_scores in Hlook.
  split; [|done].
  apply accessibility_of_index in Hfb1 as (s & Hs & ->).
  apply set_column_geometry.
  by rewrite length_s_values, <- length_s_index, Hs, length_index.
Qed.

(** A successful evaluation of the tasks of one city: what it has called. *)
Lemma eval_city_tasks_ok data_folder fig_folder i city c w v w' :
  (∀ name, cache_get (name, i) c = None) →
  eval R (city_tasks data_folder fig_folder i city) c w = (Ok v, w') →
  trace w' = trace w ++ city_events data_folder fig_folder city.
Proof.
  intros Hfresh. unfold city_tasks.
  repeat eval_step.
  destruct (file_frame (disk w) (layer_path data_folder city "parks")) as [fp|?]; [|done].
  repeat eval_step.
  destruct (file_frame (disk w) (layer_path data_folder city "nodes")) as [fn|?]; [|done].
  repeat eval_step.
  destruct (file_frame (disk w) (layer_path data_folder city "edges")) as [fe|?]; [|done].
  repeat eval_step.
  destruct (file_frame (disk w) (layer_path data_folder city "buildings")) as [fb|?];
    [|done].
  repeat eval_step.
  match goal with |- context [accessibility_analysis R ?n ?e ?p ?b ?d ?w0] =>
    destruct (accessibility_analysis_run R fn fe fp fb d w0 n e p b) as (evs2 & Hacc);
      [solve_lookup..|];
    destruct (accessibility_analysis R n e p b d w0) as [[l|?] w2] eqn:Ha1; [|done];
    pose proof (accessibility_analysis_ok_world R _ _ _ _ _ _ _ _ Ha1) as (Htr & _)
  end.
  destruct (accessibility_of R fn fe fp fb 800) as [fb1|?] eqn:Hfb1; [|done].
  injection Hacc as -> ->. norm.
  unfold add_events, set_heap in Htr. cbn [trace] in Htr. apply app_inv_head in Htr as ->.
  repeat eval_step.
  erewrite (plot_run city _ _ fig_folder fp fb1); cycle 1.
  { solve_lookup. }
  { cbn [heap]. apply list_lookup_insert_eq. rewrite !length_app. simpl. lia. }
  destruct (getitem fb1 "accessibility") as [acc|?]; [|done].
  cbn zeta. cbn [writable].
  destruct (writable w (figure_path fig_folder city)); [|done].
  intros [= <- <-]. cbn [trace set_figures add_events]. unfold city_events.
  by rewrite <- !app_assoc.
Qed.

Lemma eval_batch_trace data_folder fig_folder cities : ∀ k c w vc w',
  (∀ name j, (k ≤ j)%nat → cache_get (name, j) c = None) →
  eval_list R (imap (λ i, city_tasks data_folder fig_folder (k + i)) cities) c w
    = (Ok vc, w') →
  trace w' = trace w ++ (cities ≫= city_events data_folder fig_folder)
  ∧ length vc.1 = length cities.
Proof.
  induction cities as [|city cities IH]; intros k c w vc w' Hfresh.
  { intros [= <- <-]. by rewrite app_nil_r. }
  rewrite imap_cons, eval_list_cons. unfold bind at 1.
  destruct (eval_city_tasks R data_folder fig_folder (k + 0) city c w)
    as (r1 & w1 & Hrun & _ & _ & Hcity).
  { intros name. apply Hfresh. lia. }
  rewrite Hrun.
  destruct (city_figure R (disk w) (writable w) data_folder fig_folder city)
    as [fig|x] eqn:Hfig; cycle 1.
  { by destruct Hcity as [-> _]. }
  destruct Hcity as (_ & c1 & -> & Hc1). cbn [fst snd].
  apply eval_city_tasks_ok in Hrun; [|intros name; apply Hfresh; lia].
  rewrite (imap_ext _ (λ i, city_tasks data_folder fig_folder (S k + i))); cycle 1.
  { intros i x _. simpl. f_equal. lia. }
  unfold bind at 1.
  destruct (eval_list R _ c1 w1) as [[vc2|x] w2] eqn:Hrest; [|done].
  intros [= <- <-].
  destruct (IH (S k) c1 w1 vc2 w2) as [Htr Hlen]; [|done|].
  { intros name j Hj. rewrite Hc1 by lia. apply Hfresh. lia. }
  split; [|by simpl; rewrite Hlen].
  rewrite Htr, Hrun. rewrite bind_cons. by rewrite <- app_assoc.
Qed.

(** X17.  A successful batch returns one result per city and has made,
    for each city of the data folder, eleven external calls: the four layer
    files read once each (the parks once, although they feed both the
    analysis and the plot), the six engine calls of the accessibility
    analysis with distance 800, and one figure write.  It has never asked for
    the nearest POIs: the batch computes no proximity table. *)
Theorem batch_external_calls (data_folder fig_folder : Path) (w w' : World)
    (results : list Value) :
  batch_cells R data_folder fig_folder w = (Ok results, w') →
  let cities := glob_names data_folder (disk w) in
  length results = length cities
  ∧ ∃ calls,
      trace w' = trace w ++ calls
      ∧ calls ≡ₚ cities ≫= (λ city,
          [EvRead (layer_path data_folder city "parks");
           EvRead (layer_path data_folder city "nodes");
           EvRead (layer_path data_folder city "edges");
           EvRead (layer_path data_folder city "buildings");
           EvNetwork; EvSetPois "parks" 1000 25; EvGetNodeIds; EvSet "parks";
           EvAggregate 800 "count" "parks"; EvGetNodeIds;
           EvSaveFig (figure_path fig_folder city)])
      ∧ length calls = (11 * length cities)%nat.
Proof.
  intros Hrun cities.
  destruct (batch_cells_run data_folder fig_folder w) as (r & w0 & Heval & Hbatch).
  rewrite Hbatch in Hrun. destruct r as [[vs c]|x]; [|done].
  injection Hrun as <- <-.
  apply eval_batch_trace in Heval as [Htr Hlen]; [|done].
  split; [done|]. eexists. split; [exact Htr|]. split; [done|].
  fold cities. clear. induction cities as [|city cities IH]; [done|].
  rewrite bind_cons, length_app, IH. simpl. lia.
Qed.

End batches.

(** A data folder with nothing in it. *)
Lemma empty_data_folder_batch_witness :
  batch_cells Ref.router data_folder fig_folder Cases.nothing = (Ok [], Cases.nothing).
Proof.
  apply (empty_data_folder_batch Ref.router data_folder fig_folder Cases.nothing).
  intros city rest. apply lookup_empty.
Defined.

(** Delft and a README.txt next to it. *)
Lemma stray_file_fails_the_batch_witness :
  "README.txt" ∈ glob_names data_folder (disk Cases.delft_and_readme)
  ∧ (load_features data_folder "README.txt" "parks" Cases.delft_and_readme).1 = Err NotFound
  ∧ ∃ x w', batch_cells Ref.router data_folder fig_folder Cases.delft_and_readme
            = (Err x, w').
Proof.
  apply (stray_file_fails_the_batch Ref.router data_folder fig_folder
           Cases.delft_and_readme "README.txt" Corrupt).
  - reflexivity.
  - intros [|s rest] Hrest; [done|].
    change (disk Cases.delft_and_readme) with Cases.stray_files.
    unfold Cases.stray_files, Cases.delft_files.
    apply not_elem_of_dom. rewrite dom_insert, dom_list_to_map. simpl.
    rewrite !not_elem_of_union, !not_elem_of_singleton.
    repeat split; discriminate.
Defined.

(** A directory with nothing in it is listed like any entry: a task is made
    for it, and the batch raises. *)
Example empty_directory_is_a_city :
  glob_names data_folder (disk Cases.empty_directory) = ["Empty"]
  ∧ (batch_cells Ref.router data_folder fig_folder Cases.empty_directory).1
    = Err NotFound.
Proof. split; vm_compute; reflexivity. Qed.

(** The data folder that holds Delft alone. *)
Lemma batch_writes_each_city_its_own_figure_witness :
  let w := Cases.delft_only in
  let w' := (batch_cells Ref.router data_folder fig_folder w).2 in
  disk w' = disk w
  ∧ (∀ city, city ∈ glob_names data_folder (disk w) →
       ∃ fp fn fe fb fb1,
         file_frame (disk w) (layer_path data_folder city "parks") = Ok fp
         ∧ file_frame (disk w) (layer_path data_folder city "nodes") = Ok fn
         ∧ file_frame (disk w) (layer_path data_folder city "edges") = Ok fe
         ∧ file_frame (disk w) (layer_path data_folder city "buildings") = Ok fb
         ∧ accessibility_of Ref.router fn fe fp fb 800 = Ok fb1
         ∧ geometry <$> rows fb1 = geometry <$> rows fb
         ∧ figures w' !! (fig_folder ++ [city +:+ ".png"])
           = Some {| fig_parks := geometry <$> rows fp;
                     fig_buildings :=
                       (λ r, (geometry r, cell r "accessibility")) <$> rows fb1 |})
  ∧ (∀ q, (∀ city, city ∈ glob_names data_folder (disk w) →
             q ≠ fig_folder ++ [city +:+ ".png"]) →
       figures w' !! q = figures w !! q).
Proof.
  apply (batch_writes_each_city_its_own_figure Ref.router data_folder fig_folder
           Cases.delft_only _ [VNone]).
  vm_compute. reflexivity.
Defined.

(** The calls of the batch over that folder. *)
Lemma batch_external_calls_witness :
  let w := Cases.delft_only in
  let cities := glob_names data_folder (disk w) in
  length [VNone] = length cities
  ∧ ∃ calls,
      trace (batch_cells Ref.router data_folder fig_folder w).2 = trace w ++ calls
      ∧ calls ≡ₚ cities ≫= (λ city,
          [EvRead (layer_path data_folder city "parks");
           EvRead (layer_path data_folder city "nodes");
           EvRead (layer_path data_folder city "edges");
           EvRead (layer_path data_folder city "buildings");
           EvNetwork; EvSetPois "parks" 1000 25; EvGetNodeIds; EvSet "parks";
           EvAggregate 800 "count" "parks"; EvGetNodeIds;
           EvSaveFig (figure_path fig_folder city)])
      ∧ length calls = (11 * length cities)%nat.
Proof.
  apply (batch_external_calls Ref.router data_folder fig_folder Cases.delft_only _ [VNone]).
  vm_compute. reflexivity.
Defined.

